(** * The Next.js wrapping loader of @sentry/nextjs: a shallow embedding

    Source files embedded here:
    - [packages/nextjs/src/config/loaders/wrappingLoader.ts]
      ([wrappingLoader], [wrapUserCode]);
    - the [withSentryGetServerSideProps] wrapper.

    JavaScript strings are modelled by [string], read as sequences of code
    units below 256.  The pieces of the JavaScript runtime the loader calls
    ([String.prototype.replace], [RegExp], Node's [path]) are modelled in the
    modules [RegExp] and [Path]; code of other packages ([rollup] with its
    [generate], and [stringMatchesSomePattern]) is a section variable of
    [Loader]. *)

From Stdlib Require Import Strings.String Strings.Ascii List Arith Bool Lia.
Import ListNotations.
Open Scope string_scope.

(** ** Values and completions *)

(** A thrown JavaScript [Error]: its [name] and its [message]. *)
Inductive JsError : Type :=
| mkError (name message : string).

(** [String(err)] for an [Error] object, i.e. [Error.prototype.toString]. *)
Definition String_of_error (e : JsError) : string :=
  match e with
  | mkError name message =>
      if String.eqb name "" then message
      else if String.eqb message "" then name
      else name ++ ": " ++ message
  end.

(** How an evaluation ends: with a value, with an exception, or outside the
    fragment of the runtime that this development models. *)
Inductive outcome (A : Type) : Type :=
| Normal (a : A)
| Throw (e : JsError)
| Unmodelled.
Arguments Normal {A} a.
Arguments Throw {A} e.
Arguments Unmodelled {A}.

(** A settled promise. *)
Inductive settled (A : Type) : Type :=
| Fulfilled (a : A)
| Rejected (reason : JsError).
Arguments Fulfilled {A} a.
Arguments Rejected {A} reason.

Definition obind {A B : Type} (o : outcome A) (f : A -> outcome B) : outcome B :=
  match o with
  | Normal a => f a
  | Throw e => Throw e
  | Unmodelled => Unmodelled
  end.

Notation "x <-- c1 ;; c2" := (obind c1 (fun x => c2))
  (at level 61, c1 at next level, right associativity).

(** ** Regular expressions: the fragment of ECMAScript the loader meets *)

Module RegExp.

(** Patterns.  [Repeat min max r] is the greedy quantifier ([max = None] is
    unbounded): [r*] is [Repeat 0 None r], [r+] is [Repeat 1 None r] and [r?]
    is [Repeat 0 (Some 1) r].  [Group i r] is the [i]-th capturing group. *)
Inductive regex : Type :=
| Eps
| Chr (c : ascii)
| Dot
| Bol
| Eol
| Seq (r1 r2 : regex)
| Alt (r1 r2 : regex)
| Repeat (min : nat) (max : option nat) (r : regex)
| Group (i : nat) (r : regex).

(** Captures: group index to captured text; an absent index is [undefined]. *)
Definition caps : Type := list (nat * string).

Fixpoint get_cap (i : nat) (c : caps) : option string :=
  match c with
  | [] => None
  | (j, v) :: c' => if Nat.eqb i j then Some v else get_cap i c'
  end.

Definition set_cap (i : nat) (v : string) (c : caps) : caps :=
  (i, v) :: filter (fun jv => negb (Nat.eqb i (fst jv))) c.

Fixpoint groups (r : regex) : list nat :=
  match r with
  | Seq r1 r2 | Alt r1 r2 => groups r1 ++ groups r2
  | Repeat _ _ r1 => groups r1
  | Group i r1 => i :: groups r1
  | _ => []
  end.

Definition clear_caps (r : regex) (c : caps) : caps :=
  filter (fun jv => negb (existsb (Nat.eqb (fst jv)) (groups r))) c.

(** A match state: end index, the rest of the input after it, captures. *)
Definition mstate : Type := (nat * string * caps)%type.
Definition cont : Type := nat -> string -> caps -> option mstate.

(** LineTerminator code units below 256: LF and CR. *)
Definition isLineTerminator (a : ascii) : bool :=
  Ascii.eqb a "010"%char || Ascii.eqb a "013"%char.

(** [RepeatMatcher] of the language specification, for a greedy quantifier
    over an atom matched by [m1]: at most [max] turns, at least [min]; a turn
    that is not required and consumes nothing is refused, and each turn
    starts with the captures of the atom cleared.  [fuel] bounds the turns:
    there are at most [min] required ones and one per code unit after. *)
Fixpoint RepeatMatcher (m1 : cont -> cont) (clear : caps -> caps) (k : cont)
    (fuel min : nat) (max : option nat) (p : nat) (t : string) (c : caps)
  {struct fuel} : option mstate :=
  match fuel with
  | 0 => None
  | S fuel' =>
      match max with
      | Some 0 => k p t c
      | _ =>
          let d : cont := fun p' t' c' =>
            if Nat.eqb min 0 && Nat.eqb p' p then None
            else RepeatMatcher m1 clear k fuel' (Nat.pred min)
                   (option_map Nat.pred max) p' t' c' in
          match min with
          | 0 =>
              match m1 d p t (clear c) with
              | Some z => Some z
              | None => k p t c
              end
          | S _ => m1 d p t (clear c)
          end
      end
  end.

(** The backtracking matcher of the language specification, in
    continuation-passing style: [matcher r k p t c] matches [r] at index [p],
    where [t] is the input from [p] on, and hands the end state to [k].
    No flags are set: the two anchors match at the two ends of the input
    only, and the dot matches anything but a line terminator. *)
Fixpoint matcher (r : regex) (k : cont) (p : nat) (t : string) (c : caps)
  {struct r} : option mstate :=
  match r with
  | Eps => k p t c
  | Chr a =>
      match t with
      | String b t' => if Ascii.eqb a b then k (S p) t' c else None
      | EmptyString => None
      end
  | Dot =>
      match t with
      | String b t' => if isLineTerminator b then None else k (S p) t' c
      | EmptyString => None
      end
  | Bol => if Nat.eqb p 0 then k p t c else None
  | Eol => match t with EmptyString => k p t c | _ => None end
  | Seq r1 r2 => matcher r1 (matcher r2 k) p t c
  | Alt r1 r2 =>
      match matcher r1 k p t c with
      | Some z => Some z
      | None => matcher r2 k p t c
      end
  | Repeat min max r1 =>
      RepeatMatcher (matcher r1) (clear_caps r1) k
        (S (S (min + String.length t))) min max p t c
  | Group i r1 =>
      matcher r1 (fun p' t' c' => k p' t' (set_cap i (substring 0 (p' - p) t) c')) p t c
  end.

Definition accept : cont := fun p t c => Some (p, t, c).

(** [RegExpBuiltinExec] from [lastIndex = p]: the leftmost index at which the
    pattern matches, with the end state of the match. *)
Fixpoint search (r : regex) (p : nat) (t : string) : option (nat * mstate) :=
  match matcher r accept p t [] with
  | Some z => Some (p, z)
  | None =>
      match t with
      | EmptyString => None
      | String _ t' => search r (S p) t'
      end
  end.

(** The capture list handed to [GetSubstitution]: one entry per group. *)
Definition captures (r : regex) (c : caps) : list (option string) :=
  map (fun i => get_cap i c) (seq 1 (List.length (groups r))).

Definition isDigit (a : ascii) : bool :=
  Nat.leb 48 (nat_of_ascii a) && Nat.leb (nat_of_ascii a) 57.

Definition digit (a : ascii) : nat := nat_of_ascii a - 48.

Definition capture_text (cs : list (option string)) (n : nat) : option string :=
  if Nat.leb 1 n && Nat.leb n (List.length cs)
  then Some (match nth (n - 1) cs None with Some v => v | None => "" end)
  else None.

(** [GetSubstitution(matched, str, position, captures, undefined, template)]. *)
Fixpoint GetSubstitution (matched str : string) (position : nat)
    (cs : list (option string)) (template : string) : string :=
  match template with
  | EmptyString => EmptyString
  | String "$" rest =>
      match rest with
      | String "$" rest' => "$" ++ GetSubstitution matched str position cs rest'
      | String "&" rest' => matched ++ GetSubstitution matched str position cs rest'
      | String "`" rest' =>
          substring 0 position str ++ GetSubstitution matched str position cs rest'
      | String "'" rest' =>
          substring (position + String.length matched)
                    (String.length str - (position + String.length matched)) str
            ++ GetSubstitution matched str position cs rest'
      | String d1 rest' =>
          if isDigit d1 then
            let one :=
              match capture_text cs (digit d1) with
              | Some v => v ++ GetSubstitution matched str position cs rest'
              | None => "$" ++ GetSubstitution matched str position cs rest
              end in
            match rest' with
            | String d2 rest'' =>
                if isDigit d2 then
                  let index := 10 * digit d1 + digit d2 in
                  if Nat.ltb (List.length cs) index then one
                  else
                    match capture_text cs index with
                    | Some v => v ++ GetSubstitution matched str position cs rest''
                    | None => "$" ++ GetSubstitution matched str position cs rest
                    end
                else one
            | EmptyString => one
            end
          else "$" ++ GetSubstitution matched str position cs rest
      | EmptyString => "$"
      end
  | String a rest => String a (GetSubstitution matched str position cs rest)
  end.

(** [String.prototype.replace(regexp, template)] for a pattern without the
    [g] flag: the first match only. *)
Definition replace (r : regex) (template : string) (s : string) : string :=
  match search r 0 s with
  | None => s
  | Some (p, (e, rest, c)) =>
      substring 0 p s
        ++ GetSubstitution (substring p (e - p) s) s p (captures r c) template
        ++ rest
  end.

(** [String.prototype.replace(regexp, template)] for a pattern with the [g]
    flag: every match, left to right; after an empty match the scan moves on
    by one code unit.  [t] is the input from index [p] on. *)
Fixpoint replace_from (fuel : nat) (r : regex) (template : string)
    (whole : string) (p : nat) (t : string) : string :=
  match fuel with
  | 0 => t
  | S fuel' =>
      match search r p t with
      | None => t
      | Some (b, (e, rest, c)) =>
          substring 0 (b - p) t
            ++ GetSubstitution (substring b (e - b) whole) whole b (captures r c) template
            ++ (if Nat.eqb e b then
                  match rest with
                  | EmptyString => EmptyString
                  | String a rest' =>
                      String a (replace_from fuel' r template whole (S e) rest')
                  end
                else replace_from fuel' r template whole e rest)
      end
  end.

Definition replaceAll (r : regex) (template : string) (s : string) : string :=
  replace_from (S (String.length s)) r template s 0 s.

(** [RegExp.prototype.test]. *)
Definition test (r : regex) (s : string) : bool :=
  match search r 0 s with Some _ => true | None => false end.

(** *** [new RegExp(source)]: the pattern parser

    The fragment parsed: pattern characters, [.], [^], [$], [|], identity
    escapes of non-alphanumeric characters, capturing groups and [(?:...)],
    and the greedy quantifiers [*], [+], [?].  A source using anything else
    (classes, braces, lazy quantifiers, look-around, named groups, escapes
    of letters and digits) is [Unmodelled]; a source that the language
    rejects inside the fragment throws [SyntaxError]. *)

Inductive last_term : Type :=
| LNone      (* the alternative is still empty *)
| LAtom      (* an atom: a quantifier may follow *)
| LQuant     (* a quantified atom *)
| LAssert.   (* [^] or [$] *)

Record frame : Type := mkFrame
  { f_alts : list regex;        (* finished alternatives, latest first *)
    f_terms : list regex;       (* terms of the open alternative, latest first *)
    f_last : last_term;
    f_group : option nat }.     (* index of the group being parsed, if capturing *)

Definition seq_of (terms : list regex) : regex :=
  match terms with
  | [] => Eps
  | t :: ts => fold_left (fun acc x => Seq x acc) ts t
  end.

Definition alt_of (alts : list regex) (lastAlt : regex) : regex :=
  fold_left (fun acc x => Alt x acc) alts lastAlt.

Definition close_frame (f : frame) : regex :=
  alt_of (f_alts f) (seq_of (f_terms f)).

Definition push_term (f : frame) (t : regex) (l : last_term) : frame :=
  mkFrame (f_alts f) (t :: f_terms f) l (f_group f).

Definition quantify (f : frame) (min : nat) (max : option nat) : frame :=
  match f_terms f with
  | t :: ts => mkFrame (f_alts f) (Repeat min max t :: ts) LQuant (f_group f)
  | [] => f
  end.

Definition isAlnum (a : ascii) : bool :=
  let n := nat_of_ascii a in
  (Nat.leb 48 n && Nat.leb n 57) || (Nat.leb 65 n && Nat.leb n 90)
  || (Nat.leb 97 n && Nat.leb n 122).

Definition SyntaxError (source reason : string) : JsError :=
  mkError "SyntaxError" ("Invalid regular expression: /" ++ source ++ "/: " ++ reason).

Fixpoint parse (source : string) (s : string) (cur : frame) (stack : list frame)
    (ngroups : nat) {struct s} : outcome regex :=
  match s with
  | EmptyString =>
      match stack with
      | [] => Normal (close_frame cur)
      | _ :: _ => Throw (SyntaxError source "Unterminated group")
      end
  | String "(" s' =>
      match s' with
      | String "?" (String ":" s'') =>
          parse source s'' (mkFrame [] [] LNone None) (cur :: stack) ngroups
      | String "?" _ => Unmodelled
      | _ =>
          parse source s' (mkFrame [] [] LNone (Some (S ngroups))) (cur :: stack)
                (S ngroups)
      end
  | String ")" s' =>
      match stack with
      | [] => Throw (SyntaxError source "Unmatched ')'")
      | parent :: stack' =>
          let body := close_frame cur in
          let term := match f_group cur with
                      | Some i => Group i body
                      | None => body
                      end in
          parse source s' (push_term parent term LAtom) stack' ngroups
      end
  | String "|" s' =>
      parse source s'
            (mkFrame (seq_of (f_terms cur) :: f_alts cur) [] LNone (f_group cur))
            stack ngroups
  | String "*" s' =>
      match f_last cur with
      | LAtom => parse source s' (quantify cur 0 None) stack ngroups
      | _ => Throw (SyntaxError source "Nothing to repeat")
      end
  | String "+" s' =>
      match f_last cur with
      | LAtom => parse source s' (quantify cur 1 None) stack ngroups
      | _ => Throw (SyntaxError source "Nothing to repeat")
      end
  | String "?" s' =>
      match f_last cur with
      | LAtom => parse source s' (quantify cur 0 (Some 1)) stack ngroups
      | LQuant => Unmodelled
      | _ => Throw (SyntaxError source "Nothing to repeat")
      end
  | String "\" s' =>
      match s' with
      | EmptyString => Throw (SyntaxError source "\ at end of pattern")
      | String a s'' =>
          if isAlnum a then Unmodelled
          else parse source s'' (push_term cur (Chr a) LAtom) stack ngroups
      end
  | String "[" _ => Unmodelled
  | String "{" _ => Unmodelled
  | String "^" s' => parse source s' (push_term cur Bol LAssert) stack ngroups
  | String "$" s' => parse source s' (push_term cur Eol LAssert) stack ngroups
  | String "." s' => parse source s' (push_term cur Dot LAtom) stack ngroups
  | String a s' => parse source s' (push_term cur (Chr a) LAtom) stack ngroups
  end.

(** [new RegExp(source)], without flags. *)
Definition RegExp_new (source : string) : outcome regex :=
  parse source source (mkFrame [] [] LNone None) [] 0.

(** The loader's regular-expression literals. *)

(** The literal that captures a whole line, see [re_whole_source]. *)
Definition re_whole : regex := Group 1 (Repeat 0 None Dot).

(** The literal for a trailing index segment, see [re_index_source]. *)
Definition re_index : regex :=
  Seq (Chr "/") (Seq (Chr "i") (Seq (Chr "n") (Seq (Chr "d") (Seq (Chr "e")
    (Seq (Chr "x") Eol))))).

(** The literal for the empty string, see [re_empty_source]. *)
Definition re_empty : regex := Seq Bol Eol.

(** The literal for one backslash, used with flag [g]. *)
Definition re_backslash : regex := Chr "\".

(** A literal pattern: the characters of [s] in sequence. *)
Fixpoint re_literal (s : string) : regex :=
  match s with
  | EmptyString => Eps
  | String a EmptyString => Chr a
  | String a s' => Seq (Chr a) (re_literal s')
  end.

(** The literal with source "__ROUTE__" and flag [g]. *)
Definition re_route : regex := re_literal "__ROUTE__".

(** The literal with source "__SENTRY_WRAPPING_TARGET_FILE__" and flag [g]. *)
Definition re_target : regex := re_literal "__SENTRY_WRAPPING_TARGET_FILE__".

End RegExp.

(** ** Node's [path] module *)

Module Path.

Inductive platform : Type := posix | win32.

(** The host: which [path] implementation is in force, and [process.cwd()]. *)
Record Host : Type := mkHost { host_platform : platform; host_cwd : string }.

(** The segments between separators: "a/b" gives [a; b], "/a" gives
    [""; a]. *)
Fixpoint split_on (isSep : ascii -> bool) (s : string) : list string :=
  match s with
  | EmptyString => [EmptyString]
  | String a s' =>
      if isSep a then EmptyString :: split_on isSep s'
      else match split_on isSep s' with
           | seg :: rest => String a seg :: rest
           | [] => [String a EmptyString]
           end
  end.

(** [normalizeString], on segments: empty and "." segments vanish, ".."
    removes the segment before it; above the root it is kept only when
    [allowAboveRoot].  [res] holds the segments kept so far, latest first. *)
Fixpoint normalizeSegments (allowAboveRoot : bool) (segs res : list string)
  : list string :=
  match segs with
  | [] => rev res
  | seg :: segs' =>
      if String.eqb seg "" || String.eqb seg "." then
        normalizeSegments allowAboveRoot segs' res
      else if String.eqb seg ".." then
        match res with
        | prev :: res' =>
            if String.eqb prev ".." then
              normalizeSegments allowAboveRoot segs'
                (if allowAboveRoot then ".." :: res else res)
            else normalizeSegments allowAboveRoot segs' res'
        | [] =>
            normalizeSegments allowAboveRoot segs'
              (if allowAboveRoot then [".."] else [])
        end
      else normalizeSegments allowAboveRoot segs' (seg :: res)
  end.

Definition nonEmpty (s : string) : bool := negb (String.eqb s "").

Definition endsWithSep (isSep : ascii -> bool) (s : string) : bool :=
  match last (list_ascii_of_string s) "a"%char with
  | a => isSep a && nonEmpty s
  end.

(** The segments two resolved paths do not share. *)
Fixpoint strip_common (same : string -> string -> bool) (from to : list string)
  : list string * list string :=
  match from, to with
  | f :: from', t :: to' =>
      if same f t then strip_common same from' to' else (from, to)
  | _, _ => (from, to)
  end.

(** *** [path.posix] *)

Definition isPosixSep (a : ascii) : bool := Ascii.eqb a "/"%char.

Definition posix_isAbsolute (p : string) : bool :=
  match p with String a _ => isPosixSep a | EmptyString => false end.

Definition posix_normalizeString (path : string) (allowAboveRoot : bool) : string :=
  String.concat "/" (normalizeSegments allowAboveRoot (split_on isPosixSep path) []).

(** One turn of the loop of [posix.resolve]: [acc] is [resolvedPath] and
    [resolvedAbsolute]. *)
Definition posix_resolve_step (path : string) (acc : string * bool) : string * bool :=
  if snd acc then acc
  else if String.eqb path "" then acc
  else (path ++ "/" ++ fst acc, posix_isAbsolute path).

(** [posix.resolve(p)] *)
Definition posix_resolve (cwd p : string) : string :=
  let acc := posix_resolve_step cwd (posix_resolve_step p ("", false)) in
  let n := posix_normalizeString (fst acc) (negb (snd acc)) in
  if snd acc then "/" ++ n
  else if String.eqb n "" then "." else n.

(** [posix.relative(from, to)].  Both resolved paths are absolute whenever
    [cwd] is; the comparison of the two is on their segments. *)
Definition posix_relative (cwd from to : string) : outcome string :=
  if String.eqb from to then Normal ""
  else
    let from' := posix_resolve cwd from in
    let to' := posix_resolve cwd to in
    if String.eqb from' to' then Normal ""
    else if posix_isAbsolute from' && posix_isAbsolute to' then
      let fs := filter nonEmpty (split_on isPosixSep from') in
      let ts := filter nonEmpty (split_on isPosixSep to') in
      let rest := strip_common String.eqb fs ts in
      Normal (String.concat "/" (map (fun _ => "..") (fst rest) ++ snd rest))
    else Unmodelled.

(** [posix.normalize(path)] *)
Definition posix_normalize (path : string) : string :=
  if String.eqb path "" then "."
  else
    let isAbsolute := posix_isAbsolute path in
    let trailingSeparator := endsWithSep isPosixSep path in
    let n := posix_normalizeString path (negb isAbsolute) in
    if String.eqb n "" then
      (if isAbsolute then "/" else if trailingSeparator then "./" else ".")
    else
      (if isAbsolute then "/" else "") ++ n ++ (if trailingSeparator then "/" else "").

(** [posix.join(...parts)] *)
Definition posix_join (parts : list string) : string :=
  match filter nonEmpty parts with
  | [] => "."
  | joined => posix_normalize (String.concat "/" joined)
  end.

(** *** [path.win32], for paths that start with a drive letter and a
    separator and hold code units below 128 only; every other path is
    [Unmodelled]. *)

Definition isWin32Sep (a : ascii) : bool :=
  Ascii.eqb a "/"%char || Ascii.eqb a "\"%char.

Definition isDeviceLetter (a : ascii) : bool :=
  let n := nat_of_ascii a in
  (Nat.leb 65 n && Nat.leb n 90) || (Nat.leb 97 n && Nat.leb n 122).

Definition toLowerAscii (a : ascii) : ascii :=
  let n := nat_of_ascii a in
  if Nat.leb 65 n && Nat.leb n 90 then ascii_of_nat (n + 32) else a.

Fixpoint toLowerCase (s : string) : string :=
  match s with
  | EmptyString => EmptyString
  | String a s' => String (toLowerAscii a) (toLowerCase s')
  end.

Fixpoint allBelow128 (s : string) : bool :=
  match s with
  | EmptyString => true
  | String a s' => Nat.ltb (nat_of_ascii a) 128 && allBelow128 s'
  end.

(** The device of a drive-absolute path and what follows its root. *)
Definition drive_root (p : string) : option (string * string) :=
  match p with
  | String d (String ":" (String sep tail)) =>
      if isDeviceLetter d && isWin32Sep sep && allBelow128 tail
      then Some (String d ":", tail) else None
  | _ => None
  end.

(** [win32.resolve(p)] as device and segments. *)
Definition win32_resolve (p : string) : outcome (string * list string) :=
  match drive_root p with
  | Some (device, tail) =>
      Normal (device, normalizeSegments false (split_on isWin32Sep tail) [])
  | None => Unmodelled
  end.

Definition win32_string (device : string) (segs : list string) : string :=
  device ++ "\" ++ String.concat "\" segs.

Definition same_lower (a b : string) : bool :=
  String.eqb (toLowerCase a) (toLowerCase b).

(** [win32.relative(from, to)] *)
Definition win32_relative (from to : string) : outcome string :=
  if String.eqb from to then Normal ""
  else
    f <-- win32_resolve from ;;
    t <-- win32_resolve to ;;
    let fromOrig := win32_string (fst f) (snd f) in
    let toOrig := win32_string (fst t) (snd t) in
    if String.eqb fromOrig toOrig then Normal ""
    else if same_lower fromOrig toOrig then Normal ""
    else if negb (same_lower (fst f) (fst t)) then Normal toOrig
    else
      let rest := strip_common same_lower (snd f) (snd t) in
      Normal (String.concat "\" (map (fun _ => "..") (fst rest) ++ snd rest)).

(** [win32.join(...parts)] *)
Definition win32_join (parts : list string) : outcome string :=
  match filter nonEmpty parts with
  | [] => Normal "."
  | joined =>
      let path := String.concat "\" joined in
      match drive_root path with
      | Some (device, tail) =>
          let segs := normalizeSegments false (split_on isWin32Sep tail) [] in
          Normal (win32_string device segs
                  ++ (if endsWithSep isWin32Sep path && negb (Nat.eqb (List.length segs) 0)
                      then "\" else ""))
      | None => Unmodelled
      end
  end.

(** *** [path], as the host has it *)

Definition relative (h : Host) (from to : string) : outcome string :=
  match host_platform h with
  | posix => posix_relative (host_cwd h) from to
  | win32 => win32_relative from to
  end.

Definition join (h : Host) (parts : list string) : outcome string :=
  match host_platform h with
  | posix => Normal (posix_join parts)
  | win32 => win32_join parts
  end.

End Path.

(** ** The loader: [wrappingLoader.ts] *)

Module Loader.
Import RegExp.

(** [userModuleSourceMap: any]: [undefined], or a raw source map. *)
Definition SourceMap : Type := option string.

(** An entry of [excludeServerRoutes: Array<RegExp | string>]. *)
Inductive Rule : Type :=
| RuleString (s : string)
| RuleRegExp (r : regex).

Record LoaderOptions : Type := mkOptions
  { pagesDir : string;
    pageExtensionRegex : string;
    excludeServerRoutes : option (list Rule) }.

(** [LoaderThis<LoaderOptions>]: webpack 5 provides [getOptions], webpack 4
    provides [query].  [callback_throws earlier err content sourceMap] is
    what the host's [this.callback(err, content, sourceMap)] throws, if it
    throws, after the [earlier] calls of it. *)
Record LoaderThis : Type := mkThis
  { resourcePath : string;
    getOptions : option LoaderOptions;
    query : LoaderOptions;
    callback_throws :
      list (option JsError * string * SourceMap) ->
      option JsError -> string -> SourceMap -> option JsError }.

Definition SENTRY_WRAPPER_MODULE_NAME : string := "sentry-wrapper-module".
Definition WRAPPING_TARGET_MODULE_NAME : string := "__SENTRY_WRAPPING_TARGET_FILE__.cjs".

(** The three template files, read once when the module is loaded. *)
Record Templates : Type := mkTemplates
  { apiWrapperTemplateCode : string;
    pageWrapperTemplateCode : string;
    middlewareWrapperTemplateCode : string }.

(** *** Rollup's interface, as far as [wrapUserCode] uses it *)

Inductive LoadResult : Type :=
| LoadNull
| LoadCode (code : string)
| LoadCodeMap (code : string) (map : SourceMap).

Record CommonjsOptions : Type := mkCommonjsOptions
  { transformMixedEsModules : bool; sourceMap : bool }.

Inductive Plugin : Type :=
| InlinePlugin (name : string) (resolveId : string -> option string)
               (load : string -> LoadResult)
| CommonjsPlugin (options : CommonjsOptions).

Record RollupOptions : Type := mkRollupOptions
  { input : string;
    plugins : list Plugin;
    external : string -> bool;
    context : string;
    makeAbsoluteExternalsRelative : bool;
    (* what the handler passes on to the default warning printer *)
    onwarn : string -> list string }.

Record OutputOptions : Type := mkOutputOptions
  { format : string; sourcemap : string }.

Record OutputChunk : Type := mkChunk
  { code : string; map : SourceMap }.

(** *** Effects

    What the loader does to its environment, in order: *)
Inductive event : Type :=
| Async                                            (* this.async() *)
| Callback (err : option JsError) (content : string) (sourceMap : SourceMap)
                                                   (* this.callback(err, content, sourceMap) *)
| ConsoleWarn (message : string)                   (* console.warn(message) *)
| WrapUserCode (wrapperCode userModuleCode : string) (userModuleSourceMap : SourceMap).
                                                   (* a call of wrapUserCode *)

(** Computations that log events and may throw.  For a promise, [Normal] is
    fulfilment and [Throw] is rejection.  The host's [this.async] and
    [console.warn] return normally; whether [this.callback] does is for the
    host to say, see [callback_throws]. *)
Definition M (A : Type) : Type := list event -> outcome A * list event.

Definition ret {A : Type} (a : A) : M A := fun tr => (Normal a, tr).

Definition bind {A B : Type} (m : M A) (f : A -> M B) : M B :=
  fun tr =>
    match m tr with
    | (Normal a, tr') => f a tr'
    | (Throw e, tr') => (Throw e, tr')
    | (Unmodelled, tr') => (Unmodelled, tr')
    end.

Definition emit (e : event) : M unit := fun tr => (Normal tt, (tr ++ [e])%list).

Definition lift {A : Type} (o : outcome A) : M A := fun tr => (o, tr).

Definition await {A : Type} (p : settled A) : M A :=
  fun tr => match p with
            | Fulfilled a => (Normal a, tr)
            | Rejected e => (Throw e, tr)
            end.

(** [p.then(onFulfilled)] *)
Definition then_ {A B : Type} (p : M A) (onFulfilled : A -> M B) : M B :=
  bind p onFulfilled.

(** [p.catch(onRejected)] *)
Definition catch_ {A : Type} (p : M A) (onRejected : JsError -> M A) : M A :=
  fun tr =>
    match p tr with
    | (Throw e, tr') => onRejected e tr'
    | r => r
    end.

Notation "x <- c1 ;; c2" := (bind c1 (fun x => c2))
  (at level 61, c1 at next level, right associativity).
Notation "c1 ;;; c2" := (bind c1 (fun _ => c2))
  (at level 61, right associativity).

(** ['getOptions' in this ? this.getOptions() : this.query] *)
Definition loaderOptions (this : LoaderThis) : LoaderOptions :=
  match getOptions this with
  | Some o => o
  | None => query this
  end.

(** The default of the destructuring: [excludeServerRoutes = []]. *)
Definition excludedRoutes (o : LoaderOptions) : list Rule :=
  match excludeServerRoutes o with
  | Some rules => rules
  | None => []
  end.

(** The calls of [this.callback] in a trace, and the warnings printed. *)
Fixpoint callbacks (tr : list event) : list (option JsError * string * SourceMap) :=
  match tr with
  | [] => []
  | Callback err content sourceMap :: tr' => (err, content, sourceMap) :: callbacks tr'
  | _ :: tr' => callbacks tr'
  end.

Fixpoint warnings (tr : list event) : list string :=
  match tr with
  | [] => []
  | ConsoleWarn message :: tr' => message :: warnings tr'
  | _ :: tr' => warnings tr'
  end.

Fixpoint links (tr : list event) : list (string * string * SourceMap) :=
  match tr with
  | [] => []
  | WrapUserCode w u m :: tr' => (w, u, m) :: links tr'
  | _ :: tr' => links tr'
  end.

(** How a call ends that throws [e] when given [Some e], and returns
    otherwise. *)
Definition callResult (thrown : option JsError) : outcome unit :=
  match thrown with
  | None => Normal tt
  | Some e => Throw e
  end.

(** The route of a page file, lines 50-62 of the loader. *)
Definition parameterizedRoute (h : Path.Host)
    (pagesDir resourcePath pageExtensionRegex : string) : outcome string :=
  (* Get the path of the file inside of the pages directory *)
  rel <-- Path.relative h pagesDir resourcePath ;;
  (* Add a slash at the beginning *)
  let s1 := replace re_whole "/$1" rel in
  (* Pull off the file extension *)
  ext <-- RegExp_new ("\.(" ++ pageExtensionRegex ++ ")") ;;
  let s2 := replace ext "" s1 in
  (* turn /xyz/index into just /xyz *)
  let s3 := replace re_index "" s2 in
  (* sub back in the root route *)
  Normal (replace re_empty "/" s3).

(** The choice of lines 73-80. *)
Definition selectTemplate (t : Templates)
    (route resourcePath middlewareJsPath middlewareTsPath : string) : string :=
  if String.prefix "/api" route then apiWrapperTemplateCode t
  else if String.eqb resourcePath middlewareJsPath
          || String.eqb resourcePath middlewareTsPath
  then middlewareWrapperTemplateCode t
  else pageWrapperTemplateCode t.

(** The two substitutions of lines 83 and 86. *)
Definition injectRoute (route templateCode : string) : string :=
  replaceAll re_target WRAPPING_TARGET_MODULE_NAME
    (replaceAll re_route (replaceAll re_backslash "\\" route) templateCode).

(** [m] rejects with [err], whatever came before; [m] fulfils with [a]. *)
Definition rejects {A : Type} (m : M A) (err : JsError) : Prop :=
  forall tr, fst (m tr) = Throw err.

Definition fulfils {A : Type} (m : M A) (a : A) : Prop :=
  forall tr, fst (m tr) = Normal a.

Section WithCollaborators.

Variable host : Path.Host.
Variable templates : Templates.

(** [stringMatchesSomePattern] of [@sentry/utils]. *)
Variable stringMatchesSomePattern : string -> list Rule -> bool -> bool.

(** [rollup] and [RollupBuild.generate]: the promise each returns, settled.
    The output of [generate] always has a first chunk. *)
Variable RollupBuild : Type.
Variable rollup : RollupOptions -> settled RollupBuild.
Variable generate :
  RollupBuild -> OutputOptions -> settled (OutputChunk * list OutputChunk).

(** The options of the [rollup] call, lines 123-194. *)
Definition rollupOptions (wrapperCode userModuleCode : string)
    (userModuleSourceMap : SourceMap) : RollupOptions :=
  {| input := SENTRY_WRAPPER_MODULE_NAME;
     plugins :=
       [ InlinePlugin "virtualize-sentry-wrapper-modules"
           (fun id =>
              if String.eqb id SENTRY_WRAPPER_MODULE_NAME
                 || String.eqb id WRAPPING_TARGET_MODULE_NAME
              then Some id else None)
           (fun id =>
              if String.eqb id SENTRY_WRAPPER_MODULE_NAME then LoadCode wrapperCode
              else if String.eqb id WRAPPING_TARGET_MODULE_NAME
              then LoadCodeMap userModuleCode userModuleSourceMap
              else LoadNull);
         CommonjsPlugin {| transformMixedEsModules := true; sourceMap := true |} ];
     external := fun sourceId =>
       negb (String.eqb sourceId SENTRY_WRAPPER_MODULE_NAME)
       && negb (String.eqb sourceId WRAPPING_TARGET_MODULE_NAME);
     context := "this";
     makeAbsoluteExternalsRelative := false;
     onwarn := fun _ => [] |}.

Definition wrapUserCode (wrapperCode userModuleCode : string)
    (userModuleSourceMap : SourceMap) : M OutputChunk :=
  emit (WrapUserCode wrapperCode userModuleCode userModuleSourceMap) ;;;
  rollupBuild <- await (rollup (rollupOptions wrapperCode userModuleCode
                                   userModuleSourceMap)) ;;
  finalBundle <- await (generate rollupBuild
                          {| format := "esm"; sourcemap := "hidden" |}) ;;
  (* The module at index 0 is always the entrypoint *)
  ret (fst finalBundle).

(** [this.callback(err, content, sourceMap)]: the call is logged, and it
    returns or throws as the host has it. *)
Definition callback (this : LoaderThis) (err : option JsError) (content : string)
    (sourceMap : SourceMap) : M unit :=
  fun tr =>
    (callResult (callback_throws this (callbacks tr) err content sourceMap),
     (tr ++ [Callback err content sourceMap])%list).

Definition warning (resourcePath : string) (err : JsError) : string :=
  "[@sentry/nextjs] Could not instrument " ++ resourcePath
    ++ ". An error occurred while auto-wrapping:" ++ String "010" ""
    ++ String_of_error err.

(** The loader's synchronous run.  Its value is the promise chain it leaves
    behind, if it started one. *)
Definition wrappingLoader (this : LoaderThis) (userCode : string)
    (userModuleSourceMap : SourceMap) : M (option (M unit)) :=
  let options := loaderOptions this in
  let excluded := excludedRoutes options in
  emit Async ;;;
  route <- lift (parameterizedRoute host (pagesDir options) (resourcePath this)
                   (pageExtensionRegex options)) ;;
  (* Skip explicitly-ignored pages *)
  if stringMatchesSomePattern route excluded true then
    callback this None userCode userModuleSourceMap ;;;
    ret None
  else
    middlewareJsPath <- lift (Path.join host [pagesDir options; ".."; "middleware.js"]) ;;
    middlewareTsPath <- lift (Path.join host [pagesDir options; ".."; "middleware.ts"]) ;;
    let templateCode :=
      injectRoute route
        (selectTemplate templates route (resourcePath this)
           middlewareJsPath middlewareTsPath) in
    ret (Some
           (catch_
              (then_ (wrapUserCode templateCode userCode userModuleSourceMap)
                 (fun out => callback this None (code out) (map out)))
              (fun err =>
                 emit (ConsoleWarn (warning (resourcePath this) err)) ;;;
                 callback this None userCode userModuleSourceMap))).

(** One whole invocation: the synchronous call, then the promise chain. *)
Record Run : Type := mkRun
  { completion : outcome unit;        (* how the call of the loader ended *)
    chain : option (outcome unit);    (* how the promise chain settled *)
    events : list event }.

Definition invoke (this : LoaderThis) (userCode : string)
    (userModuleSourceMap : SourceMap) : Run :=
  match wrappingLoader this userCode userModuleSourceMap [] with
  | (Normal (Some job), tr) =>
      let r := job tr in mkRun (Normal tt) (Some (fst r)) (snd r)
  | (Normal None, tr) => mkRun (Normal tt) None tr
  | (Throw e, tr) => mkRun (Throw e) None tr
  | (Unmodelled, tr) => mkRun Unmodelled None tr
  end.

(** The route the loader computes for [this], whether the rules exclude
    it, the two middleware paths, and the wrapper code handed to
    [wrapUserCode]. *)
Definition routeOf (this : LoaderThis) : outcome string :=
  parameterizedRoute host (pagesDir (loaderOptions this)) (resourcePath this)
    (pageExtensionRegex (loaderOptions this)).

Definition excludedBy (this : LoaderThis) (route : string) : bool :=
  stringMatchesSomePattern route (excludedRoutes (loaderOptions this)) true.

Definition middlewarePath (this : LoaderThis) (file : string) : outcome string :=
  Path.join host [pagesDir (loaderOptions this); ".."; file].

Definition wrapperFor (this : LoaderThis) (route mjs mts : string) : string :=
  injectRoute route (selectTemplate templates route (resourcePath this) mjs mts).

(** The ways an invocation can go. *)
Inductive run_shape (this : LoaderThis) (userCode : string) (sm : SourceMap)
  : Run -> Prop :=
| RouteThrows e :
    routeOf this = Throw e ->
    run_shape this userCode sm (mkRun (Throw e) None [Async])
| OutsideModel :
    routeOf this = Unmodelled
    \/ (exists route, routeOf this = Normal route /\ excludedBy this route = false
         /\ (middlewarePath this "middleware.js" = Unmodelled
             \/ middlewarePath this "middleware.ts" = Unmodelled)) ->
    run_shape this userCode sm (mkRun Unmodelled None [Async])
| Excluded route :
    routeOf this = Normal route ->
    excludedBy this route = true ->
    run_shape this userCode sm
      (mkRun (callResult (callback_throws this [] None userCode sm)) None
         [Async; Callback None userCode sm])
| Linked route mjs mts out :
    routeOf this = Normal route ->
    excludedBy this route = false ->
    middlewarePath this "middleware.js" = Normal mjs ->
    middlewarePath this "middleware.ts" = Normal mts ->
    fulfils (wrapUserCode (wrapperFor this route mjs mts) userCode sm) out ->
    callback_throws this [] None (code out) (map out) = None ->
    run_shape this userCode sm
      (mkRun (Normal tt) (Some (Normal tt))
         [Async; WrapUserCode (wrapperFor this route mjs mts) userCode sm;
          Callback None (code out) (map out)])
| LinkedCallbackThrew route mjs mts out e :
    routeOf this = Normal route ->
    excludedBy this route = false ->
    middlewarePath this "middleware.js" = Normal mjs ->
    middlewarePath this "middleware.ts" = Normal mts ->
    fulfils (wrapUserCode (wrapperFor this route mjs mts) userCode sm) out ->
    callback_throws this [] None (code out) (map out) = Some e ->
    run_shape this userCode sm
      (mkRun (Normal tt)
         (Some (callResult (callback_throws this [(None, code out, map out)]
                              None userCode sm)))
         [Async; WrapUserCode (wrapperFor this route mjs mts) userCode sm;
          Callback None (code out) (map out);
          ConsoleWarn (warning (resourcePath this) e);
          Callback None userCode sm])
| LinkRejected route mjs mts err :
    routeOf this = Normal route ->
    excludedBy this route = false ->
    middlewarePath this "middleware.js" = Normal mjs ->
    middlewarePath this "middleware.ts" = Normal mts ->
    rejects (wrapUserCode (wrapperFor this route mjs mts) userCode sm) err ->
    run_shape this userCode sm
      (mkRun (Normal tt)
         (Some (callResult (callback_throws this [] None userCode sm)))
         [Async; WrapUserCode (wrapperFor this route mjs mts) userCode sm;
          ConsoleWarn (warning (resourcePath this) err);
          Callback None userCode sm]).

End WithCollaborators.

End Loader.

(** ** The data-fetching wrapper: [withSentryGetServerSideProps] *)

Module Wrappers.

Section GSSP.

(** [GSSP['context']] and [GSSP['result']]. *)
Variable Context Result : Type.

(** Whatever the auxiliary bookkeeping reads and writes. *)
Variable Bookkeeping : Type.

(** An asynchronous call: the promise it returns, settled, and the
    bookkeeping state it leaves. *)
Definition Promise (A : Type) : Type := Bookkeeping -> settled A * Bookkeeping.

(** [GSSP['fn']] and [GSSP['wrappedFn']]: one and the same shape. *)
Definition Fn : Type := Context -> Promise Result.
Definition WrappedFn : Type := Context -> Promise Result.

Variable bookkeep : Context -> Bookkeeping -> Bookkeeping.
Variable onRejected : Context -> JsError -> Promise Result.

(** Modelled from the spec: [callOriginal] of [./wrapperUtils], which is
    not among the sources.  It "performs auxiliary bookkeeping before
    delegating to the original and returning its result unchanged on the
    success path"; what it does when the original rejects is left open
    ([onRejected]). *)
Definition callOriginal (origFunction : Fn) (context : Context) : Promise Result :=
  fun w =>
    match origFunction context (bookkeep context w) with
    | (Fulfilled props, w') => (Fulfilled props, w')
    | (Rejected e, w') => onRejected context e w'
    end.

Definition withSentryGetServerSideProps (origGetServerSideProps : Fn) : WrappedFn :=
  fun context => callOriginal origGetServerSideProps context.

End GSSP.

End Wrappers.

(** ** Vocabulary of the statements about strings *)

(** Every code unit of [s] satisfies [P]. *)
Fixpoint all_chars (P : ascii -> bool) (s : string) : bool :=
  match s with
  | EmptyString => true
  | String a s' => P a && all_chars P s'
  end.

Definition all_segments (P : ascii -> bool) (segs : list string) : Prop :=
  Forall (fun seg => all_chars P seg = true) segs.

Definition notBackslash (a : ascii) : bool := negb (Ascii.eqb a "\"%char).

(** A string without any backslash. *)
Definition forwardSlashesOnly (s : string) : bool := all_chars notBackslash s.

Definition is_suffix (t' t : string) : Prop := exists pre, t = pre ++ t'.

(** A matcher hands to its continuation a rest of what it was given. *)
Definition hands_on_a_suffix (m : RegExp.cont -> RegExp.cont) : Prop :=
  forall k p t c z, m k p t c = Some z ->
    exists p' t' c', k p' t' c' = Some z /\ is_suffix t' t.

(** [k] and [k'] agree on every state that a match started at index [p] on
    input [t] can reach. *)
Definition agree_from (p : nat) (t : string) (k k' : RegExp.cont) : Prop :=
  forall p' t' c', is_suffix t' t -> p' + String.length t' = p + String.length t ->
    k p' t' c' = k' p' t' c'.

(** A matcher only looks at its continuation on such states. *)
Definition local (m : RegExp.cont -> RegExp.cont) : Prop :=
  forall k k' p t c, agree_from p t k k' -> m k p t c = m k' p t c.

(** The steps of the route computation, in words: drop a trailing "/index",
    and take the root route for the empty string. *)
Definition dropTrailingIndex (s : string) : string :=
  let n := String.length s in
  if String.eqb (substring (n - 6) 6 s) "/index" then substring 0 (n - 6) s else s.

Definition rootIfEmpty (s : string) : string :=
  if String.eqb s "" then "/" else s.

(** The length of the first line of [s], and [s] without its first [n]
    code units. *)
Fixpoint line_length (s : string) : nat :=
  match s with
  | EmptyString => 0
  | String a s' => if RegExp.isLineTerminator a then 0 else S (line_length s')
  end.

Fixpoint drop (n : nat) (s : string) : string :=
  match n, s with
  | S n', String _ s' => drop n' s'
  | _, _ => s
  end.

(** [s.replace(new RegExp(source), template)] *)
Definition replace_with (source template s : string) : outcome string :=
  r <-- RegExp.RegExp_new source ;; Normal (RegExp.replace r template s).

(** ** Vocabulary of the statements about substitution and extensions *)

(** Plain text replacement: left to right, every occurrence of [pat] that
    does not overlap an earlier one becomes [by_]; [skip] counts the code
    units of the current occurrence still to pass over. *)
Fixpoint substitute (pat by_ : string) (skip : nat) (s : string) : string :=
  match s with
  | EmptyString => EmptyString
  | String a s' =>
      match skip with
      | S k => substitute pat by_ k s'
      | 0 =>
          if String.prefix pat (String a s')
          then by_ ++ substitute pat by_ (String.length pat - 1) s'
          else String a (substitute pat by_ 0 s')
      end
  end.

Definition replaceEvery (pat by_ s : string) : string := substitute pat by_ 0 s.

(** Every backslash written twice. *)
Fixpoint doubleBackslashes (s : string) : string :=
  match s with
  | EmptyString => EmptyString
  | String a s' =>
      if Ascii.eqb a "\"%char
      then String "\" (String "\" (doubleBackslashes s'))
      else String a (doubleBackslashes s')
  end.

(** [pat] occurs somewhere in [s]. *)
Fixpoint occursIn (pat s : string) : bool :=
  String.prefix pat s
  || match s with
     | EmptyString => false
     | String _ s' => occursIn pat s'
     end.

Definition notDollar (a : ascii) : bool := negb (Ascii.eqb a "$"%char).

Definition notDot (a : ascii) : bool := negb (Ascii.eqb a "."%char).

(** Neither a dollar sign nor a backslash. *)
Definition plainCodeUnit (a : ascii) : bool := notDollar a && notBackslash a.

(** A page extension made of letters and digits, at least one. *)
Definition plainExtension (e : string) : bool :=
  all_chars RegExp.isAlnum e && negb (String.eqb e "").

(** The alternation of literal extensions, as the parser builds it from
    the extensions joined by a bar. *)
Fixpoint alternation (exts : list string) : RegExp.regex :=
  match exts with
  | [] => RegExp.Eps
  | [e] => RegExp.re_literal e
  | e :: rest => RegExp.Alt (RegExp.re_literal e) (alternation rest)
  end.

(** The first extension of the list that the text starts with. *)
Definition firstPrefix (exts : list string) (t : string) : option string :=
  find (fun e => String.prefix e t) exts.

(** The parser's frame after the code units of a literal. *)
Fixpoint push_literal (lit : string) (f : RegExp.frame) : RegExp.frame :=
  match lit with
  | EmptyString => f
  | String a lit' => push_literal lit' (RegExp.push_term f (RegExp.Chr a) RegExp.LAtom)
  end.

Definition seq_onto (terms : list RegExp.regex) (tail : RegExp.regex) : RegExp.regex :=
  fold_left (fun acc x => RegExp.Seq x acc) terms tail.

(** ** Sample collaborators, for running the model *)

Module Sample.
Import Path Loader.

Definition posixHost : Host := mkHost posix "/home/build".
Definition win32Host : Host := mkHost win32 "C:\build".

Definition sampleTemplates : Templates :=
  {| apiWrapperTemplateCode := "api(__ROUTE__); export * from '__SENTRY_WRAPPING_TARGET_FILE__';";
     pageWrapperTemplateCode := "page(__ROUTE__); export * from '__SENTRY_WRAPPING_TARGET_FILE__';";
     middlewareWrapperTemplateCode := "mw(__ROUTE__); export * from '__SENTRY_WRAPPING_TARGET_FILE__';" |}.

(** A matcher in the manner of [@sentry/utils]: a string rule must equal the
    route when [exact], and occur in it otherwise; a [RegExp] rule is tested. *)
Definition matchesSomeRule (s : string) (rules : list Rule) (exact : bool) : bool :=
  existsb (fun r => match r with
                    | RuleString x =>
                        if exact then String.eqb s x
                        else RegExp.test (RegExp.re_literal x) s
                    | RuleRegExp re => RegExp.test re s
                    end) rules.

Definition rollup_ok (o : RollupOptions) : settled unit := Fulfilled tt.

Definition rollup_fails (o : RollupOptions) : settled unit :=
  Rejected (mkError "Error" "Unexpected token").

Definition generate_ok (b : unit) (o : OutputOptions)
  : settled (OutputChunk * list OutputChunk) :=
  Fulfilled (mkChunk "bundle" (Some "{}"), []).

(** A host whose callback always returns. *)
Definition quietCallback (earlier : list (option JsError * string * SourceMap))
    (err : option JsError) (content : string) (sourceMap : SourceMap)
  : option JsError := None.

(** A host in the manner of webpack's loader runner, with a later loader
    that fails on the bundle: the first call of the callback passes that
    failure on, every further call throws. *)
Definition failingDownstream (earlier : list (option JsError * string * SourceMap))
    (err : option JsError) (content : string) (sourceMap : SourceMap)
  : option JsError :=
  match earlier with
  | [] => if String.eqb content "bundle"
          then Some (mkError "Error" "Module parse failed") else None
  | _ :: _ => Some (mkError "Error" "callback(): The callback was already called.")
  end.

Definition loaderThis (path ext : string) (rules : list Rule) : LoaderThis :=
  mkThis path None (mkOptions "/app/pages" ext (Some rules)) quietCallback.

Definition loaderThisFailingDownstream (path ext : string) (rules : list Rule)
  : LoaderThis :=
  mkThis path None (mkOptions "/app/pages" ext (Some rules)) failingDownstream.

Definition defaultExtensions : string := "tsx|ts|jsx|js".

End Sample.

(** * Properties *)

Import RegExp Path Loader.

(** ** Strings, the matcher and paths *)

Section Characters.

Variable P : ascii -> bool.

Lemma all_chars_app a b :
  all_chars P (a ++ b) = all_chars P a && all_chars P b.
Proof.
  induction a as [|x a IH]; cbn; [reflexivity|].
  rewrite IH. apply andb_assoc.
Qed.

Lemma all_chars_substring s : forall n m,
  all_chars P s = true -> all_chars P (substring n m s) = true.
Proof.
  induction s as [|x s IH]; intros n m Hs.
  - destruct n, m; reflexivity.
  - cbn in Hs. apply andb_true_iff in Hs as [Hx Hs].
    destruct n; cbn.
    + destruct m; cbn; [reflexivity|].
      rewrite Hx. apply IH. exact Hs.
    + apply IH. exact Hs.
Qed.

Lemma all_chars_suffix t' t :
  is_suffix t' t -> all_chars P t = true -> all_chars P t' = true.
Proof.
  intros [pre ->]. rewrite all_chars_app. intros H.
  apply andb_true_iff in H. tauto.
Qed.

End Characters.

Lemma is_suffix_refl t : is_suffix t t.
Proof. exists "". reflexivity. Qed.

Lemma is_suffix_trans a b c : is_suffix a b -> is_suffix b c -> is_suffix a c.
Proof.
  intros [p ->] [q ->]. exists (q ++ p).
  induction q; cbn; congruence.
Qed.

Lemma is_suffix_tail a t : is_suffix t (String a t).
Proof. exists (String a ""). reflexivity. Qed.

Lemma RepeatMatcher_suffix m1 clear k :
  hands_on_a_suffix m1 ->
  forall fuel min max p t c z,
    RepeatMatcher m1 clear k fuel min max p t c = Some z ->
    exists p' t' c', k p' t' c' = Some z /\ is_suffix t' t.
Proof.
  intros Hm1. induction fuel as [|fuel IH]; intros min max p t c z H.
  - discriminate.
  - cbn in H.
    assert (Hturn : forall d0, 
              d0 = (fun p' t' c' =>
                 if Nat.eqb min 0 && Nat.eqb p' p then None
                 else RepeatMatcher m1 clear k fuel (Nat.pred min)
                        (option_map Nat.pred max) p' t' c') ->
              m1 d0 p t (clear c) = Some z ->
              exists p' t' c', k p' t' c' = Some z /\ is_suffix t' t).
    { intros d0 -> Hd. apply Hm1 in Hd as (p1 & t1 & c1 & Hd & Hs1).
      destruct (Nat.eqb min 0 && Nat.eqb p1 p); [discriminate|].
      apply IH in Hd as (p2 & t2 & c2 & Hk & Hs2).
      exists p2, t2, c2. split; [exact Hk|].
      eapply is_suffix_trans; eassumption. }
    assert (Hstop : k p t c = Some z ->
              exists p' t' c', k p' t' c' = Some z /\ is_suffix t' t).
    { intros Hk. exists p, t, c. split; [exact Hk|apply is_suffix_refl]. }
    destruct max as [[|mx]|]; [auto| |].
    + destruct min.
      * destruct (m1 _ p t (clear c)) eqn:Hd.
        -- injection H as ->. eapply Hturn; [reflexivity|exact Hd].
        -- auto.
      * eapply Hturn; [reflexivity|exact H].
    + destruct min.
      * destruct (m1 _ p t (clear c)) eqn:Hd.
        -- injection H as ->. eapply Hturn; [reflexivity|exact Hd].
        -- auto.
      * eapply Hturn; [reflexivity|exact H].
Qed.

Lemma matcher_suffix r : hands_on_a_suffix (matcher r).
Proof.
  induction r as [| a | | | | r1 IH1 r2 IH2 | r1 IH1 r2 IH2 | min max r1 IH1 | i r1 IH1];
    intros k p t c z H; cbn [matcher] in H.
  - exists p, t, c. split; [exact H|apply is_suffix_refl].
  - destruct t as [|b t']; [discriminate|].
    destruct (Ascii.eqb a b); [|discriminate].
    exists (S p), t', c. split; [exact H|apply is_suffix_tail].
  - destruct t as [|b t']; [discriminate|].
    destruct (isLineTerminator b); [discriminate|].
    exists (S p), t', c. split; [exact H|apply is_suffix_tail].
  - destruct (Nat.eqb p 0); [|discriminate].
    exists p, t, c. split; [exact H|apply is_suffix_refl].
  - destruct t; [|discriminate].
    exists p, "", c. split; [exact H|apply is_suffix_refl].
  - apply IH1 in H as (p1 & t1 & c1 & H & Hs1).
    apply IH2 in H as (p2 & t2 & c2 & H & Hs2).
    exists p2, t2, c2. split; [exact H|eapply is_suffix_trans; eassumption].
  - destruct (matcher r1 k p t c) eqn:H1.
    + injection H as ->. apply IH1 in H1. exact H1.
    + apply IH2 in H. exact H.
  - eapply RepeatMatcher_suffix; [exact IH1|exact H].
  - apply IH1 in H as (p1 & t1 & c1 & H & Hs1).
    exists p1, t1, (set_cap i (substring 0 (p1 - p) t) c1). split; assumption.
Qed.

Lemma search_suffix r : forall t p b e rest c,
  search r p t = Some (b, (e, rest, c)) -> is_suffix rest t.
Proof.
  induction t as [|a t IH]; intros p b e rest c H; cbn in H.
  - destruct (matcher r accept p "" []) as [z|] eqn:Hm; [|discriminate].
    injection H as _ ->. apply matcher_suffix in Hm as (p' & t' & c' & Hk & Hs).
    unfold accept in Hk. injection Hk as _ -> _. exact Hs.
  - destruct (matcher r accept p (String a t) []) as [z|] eqn:Hm.
    + injection H as _ ->. apply matcher_suffix in Hm as (p' & t' & c' & Hk & Hs).
      unfold accept in Hk. injection Hk as _ -> _. exact Hs.
    + apply IH in H. eapply is_suffix_trans; [exact H|apply is_suffix_tail].
Qed.

(** *** The fuel of the quantifier is enough *)

Lemma append_length a b : String.length (a ++ b) = String.length a + String.length b.
Proof. induction a; cbn; congruence. Qed.

Lemma is_suffix_length t' t : is_suffix t' t -> String.length t' <= String.length t.
Proof. intros [pre ->]. rewrite append_length. lia. Qed.

Lemma agree_from_here p t k k' c : agree_from p t k k' -> k p t c = k' p t c.
Proof. intros H. apply H; [apply is_suffix_refl|reflexivity]. Qed.

Lemma agree_from_later p t p' t' k k' :
  agree_from p t k k' -> is_suffix t' t ->
  p' + String.length t' = p + String.length t ->
  agree_from p' t' k k'.
Proof.
  intros H Hs Hp q u c Hu Hq. apply H.
  - eapply is_suffix_trans; eassumption.
  - lia.
Qed.

Lemma RepeatMatcher_turn m1 clear k fuel min max p t c :
  RepeatMatcher m1 clear k (S fuel) min max p t c
  = match max with
    | Some 0 => k p t c
    | _ =>
        let d : cont := fun p' t' c' =>
          if Nat.eqb min 0 && Nat.eqb p' p then None
          else RepeatMatcher m1 clear k fuel (Nat.pred min)
                 (option_map Nat.pred max) p' t' c' in
        match min with
        | 0 =>
            match m1 d p t (clear c) with
            | Some z => Some z
            | None => k p t c
            end
        | S _ => m1 d p t (clear c)
        end
    end.
Proof. reflexivity. Qed.

Lemma RepeatMatcher_local m1 clear :
  local m1 ->
  forall fuel min max k k' p t c,
    agree_from p t k k' ->
    RepeatMatcher m1 clear k fuel min max p t c
    = RepeatMatcher m1 clear k' fuel min max p t c.
Proof.
  intros Hm1. induction fuel as [|fuel IH]; intros min max k k' p t c Hk; [reflexivity|].
  rewrite !RepeatMatcher_turn. cbv zeta.
  rewrite (agree_from_here _ _ _ _ c Hk).
  rewrite (Hm1 _ (fun p' t' c' =>
                    if Nat.eqb min 0 && Nat.eqb p' p then None
                    else RepeatMatcher m1 clear k' fuel (Nat.pred min)
                           (option_map Nat.pred max) p' t' c') p t (clear c)).
  - reflexivity.
  - intros p' t' c' Hs Hp.
    destruct (Nat.eqb min 0 && Nat.eqb p' p); [reflexivity|].
    apply IH. eapply agree_from_later; eassumption.
Qed.

Lemma matcher_local r : local (matcher r).
Proof.
  induction r as [| a | | | | r1 IH1 r2 IH2 | r1 IH1 r2 IH2 | min max r1 IH1 | i r1 IH1];
    intros k k' p t c Hk; cbn [matcher].
  - apply agree_from_here. exact Hk.
  - destruct t as [|b t']; [reflexivity|].
    destruct (Ascii.eqb a b); [|reflexivity].
    apply Hk; [apply is_suffix_tail|cbn; lia].
  - destruct t as [|b t']; [reflexivity|].
    destruct (isLineTerminator b); [reflexivity|].
    apply Hk; [apply is_suffix_tail|cbn; lia].
  - destruct (Nat.eqb p 0); [|reflexivity]. apply agree_from_here. exact Hk.
  - destruct t; [|reflexivity]. apply agree_from_here. exact Hk.
  - apply IH1. intros p1 t1 c1 Hs Hp. apply IH2.
    eapply agree_from_later; eassumption.
  - rewrite (IH1 k k' p t c Hk), (IH2 k k' p t c Hk). reflexivity.
  - apply RepeatMatcher_local; assumption.
  - apply IH1. intros p1 t1 c1 Hs Hp. apply Hk; assumption.
Qed.

(** Beyond [min + length t] turns, more fuel changes nothing. *)
Lemma RepeatMatcher_fuel m1 clear k :
  local m1 ->
  forall fuel min max p t c,
    min + String.length t < fuel ->
    RepeatMatcher m1 clear k (S fuel) min max p t c
    = RepeatMatcher m1 clear k fuel min max p t c.
Proof.
  intros Hm1. induction fuel as [|fuel IH]; intros min max p t c Hfuel; [lia|].
  rewrite (RepeatMatcher_turn _ _ _ (S fuel)), (RepeatMatcher_turn _ _ _ fuel).
  cbv zeta.
  rewrite (Hm1 _ (fun p' t' c' =>
                    if Nat.eqb min 0 && Nat.eqb p' p then None
                    else RepeatMatcher m1 clear k fuel (Nat.pred min)
                           (option_map Nat.pred max) p' t' c') p t (clear c)).
  - reflexivity.
  - intros p' t' c' Hs Hp.
    pose proof (is_suffix_length _ _ Hs) as Hlen.
    destruct min as [|min']; cbn [Nat.eqb andb Nat.pred].
    + destruct (Nat.eqb p' p) eqn:Heq; [reflexivity|].
      apply Nat.eqb_neq in Heq. apply IH. lia.
    + apply IH. lia.
Qed.

Lemma RepeatMatcher_enough_fuel m1 clear k :
  local m1 ->
  forall extra min max p t c,
    RepeatMatcher m1 clear k (extra + S (S (min + String.length t))) min max p t c
    = RepeatMatcher m1 clear k (S (S (min + String.length t))) min max p t c.
Proof.
  intros Hm1. induction extra as [|extra IH]; intros min max p t c; [reflexivity|].
  cbn [Nat.add]. rewrite RepeatMatcher_fuel by (assumption || lia). apply IH.
Qed.

(** *** What a replacement keeps *)

Lemma replace_keeps P r template lit s :
  (forall m st q cs, GetSubstitution m st q cs template = lit) ->
  all_chars P lit = true ->
  all_chars P s = true ->
  all_chars P (replace r template s) = true.
Proof.
  intros Hsub Hlit Hs. unfold replace.
  destruct (search r 0 s) as [[b [[e rest] c]]|] eqn:Hsearch; [|exact Hs].
  rewrite Hsub, !all_chars_app, Hlit.
  rewrite (all_chars_substring P s 0 b Hs).
  rewrite (all_chars_suffix P rest s (search_suffix _ _ _ _ _ _ _ Hsearch) Hs).
  reflexivity.
Qed.

(** *** The literal that captures a whole line *)

Lemma substring_drop n : forall s, substring 0 n s ++ drop n s = s.
Proof.
  induction n as [|n IH]; intros [|a s]; cbn; try reflexivity.
  rewrite IH. reflexivity.
Qed.

Lemma append_empty_r s : s ++ "" = s.
Proof. induction s; cbn; congruence. Qed.

Lemma clear_caps_Dot c : clear_caps Dot c = c.
Proof.
  unfold clear_caps. cbn. induction c as [|x c IH]; cbn; congruence.
Qed.

Lemma star_dot_takes_the_line (k : cont) :
  (forall p t c, exists z, k p t c = Some z) ->
  forall fuel t p c,
    String.length t < fuel ->
    RepeatMatcher (matcher Dot) (clear_caps Dot) k fuel 0 None p t c
    = k (p + line_length t) (drop (line_length t) t) c.
Proof.
  intros Hk. induction fuel as [|fuel IH]; intros t p c Hlen; [lia|].
  cbn [RepeatMatcher]. rewrite clear_caps_Dot.
  destruct t as [|a t]; cbn [matcher line_length drop].
  - rewrite Nat.add_0_r. reflexivity.
  - destruct (isLineTerminator a).
    + rewrite Nat.add_0_r. reflexivity.
    + assert (Hneq : Nat.eqb (S p) p = false) by (apply Nat.eqb_neq; lia).
      rewrite Hneq. cbn [Nat.eqb andb option_map Nat.pred].
      cbn in Hlen. rewrite IH by lia.
      replace (S p + line_length t) with (p + S (line_length t)) by lia.
      cbn [drop].
      destruct (Hk (p + S (line_length t)) (drop (line_length t) t) c) as [z ->].
      reflexivity.
Qed.

Lemma search_at_start r p t z :
  matcher r accept p t [] = Some z -> search r p t = Some (p, z).
Proof.
  intros H. destruct t; cbn; rewrite H; reflexivity.
Qed.

Lemma subst_slash_group matched str position v :
  GetSubstitution matched str position [Some v] "/$1" = "/" ++ v.
Proof.
  transitivity (String "/" (v ++ "")); [reflexivity|].
  rewrite append_empty_r. reflexivity.
Qed.

Lemma substring_0_0 s : substring 0 0 s = "".
Proof. destruct s; reflexivity. Qed.

(** Line 54 of the loader: the replacement puts a slash in front. *)
Lemma replace_whole_prepends_slash s :
  replace re_whole "/$1" s = "/" ++ s.
Proof.
  unfold replace.
  assert (Hm : matcher re_whole accept 0 s []
               = Some (line_length s, drop (line_length s) s,
                       set_cap 1 (substring 0 (line_length s - 0) s) [])).
  { unfold re_whole. cbn [matcher].
    rewrite star_dot_takes_the_line.
    - reflexivity.
    - intros p t c. eexists. reflexivity.
    - cbn. lia. }
  rewrite (search_at_start _ _ _ _ Hm).
  rewrite Nat.sub_0_r.
  change (captures re_whole (set_cap 1 (substring 0 (line_length s) s) []))
    with [Some (substring 0 (line_length s) s)].
  rewrite subst_slash_group, substring_0_0. cbn [append].
  f_equal. apply substring_drop.
Qed.

(** *** The other literals of the route computation *)

Lemma matcher_index p t :
  matcher re_index accept p t []
  = if String.eqb t "/index" then Some (p + 6, "", []) else None.
Proof.
  unfold re_index.
  do 6 (destruct t as [|? t]; [reflexivity|];
        cbn [matcher String.eqb]; rewrite Ascii.eqb_sym;
        match goal with |- context [Ascii.eqb ?a ?b] => destruct (Ascii.eqb a b) end;
        [|reflexivity]).
  destruct t; cbn; [|reflexivity].
  unfold accept. repeat f_equal. lia.
Qed.

Lemma search_empty_later t : forall p, 0 < p -> search re_empty p t = None.
Proof.
  induction t as [|a t IH]; intros p Hp; cbn.
  - destruct p; [lia|reflexivity].
  - destruct p; [lia|]. cbn. apply IH. lia.
Qed.

Lemma replace_empty s : replace re_empty "/" s = rootIfEmpty s.
Proof.
  destruct s as [|a s]; [reflexivity|].
  unfold replace, rootIfEmpty. cbn.
  rewrite search_empty_later by lia. reflexivity.
Qed.

Lemma substring_split s : forall k,
  substring 0 k s ++ substring k (String.length s - k) s = s.
Proof.
  induction s as [|a s IH]; intros [|k]; cbn; try reflexivity.
  - f_equal. specialize (IH 0). rewrite Nat.sub_0_r in IH.
    destruct s; [reflexivity|]. cbn in *. exact IH.
  - f_equal. apply IH.
Qed.

Lemma substring_length_le s : forall k m,
  String.length (substring k m s) <= String.length s - k.
Proof.
  induction s as [|a s IH]; intros k m.
  - destruct k, m; cbn; lia.
  - destruct k; cbn.
    + destruct m; cbn; [lia|]. specialize (IH 0 m). lia.
    + apply IH.
Qed.

Lemma substring_prefix pre x : substring 0 (String.length pre) (pre ++ x) = pre.
Proof.
  induction pre as [|a pre IH]; cbn.
  - apply substring_0_0.
  - rewrite IH. reflexivity.
Qed.

Lemma substring_after pre x m :
  substring (String.length pre) m (pre ++ x) = substring 0 m x.
Proof. induction pre as [|a pre IH]; cbn; [reflexivity|exact IH]. Qed.

Lemma ends_with_index s :
  String.eqb (substring (String.length s - 6) 6 s) "/index" = true
  <-> exists pre, s = pre ++ "/index".
Proof.
  rewrite String.eqb_eq. split.
  - intros H. exists (substring 0 (String.length s - 6) s).
    pose proof (substring_length_le s (String.length s - 6) 6) as Hlen.
    rewrite H in Hlen. cbn in Hlen.
    pose proof (substring_split s (String.length s - 6)) as Hs.
    replace (String.length s - (String.length s - 6)) with 6 in Hs by lia.
    rewrite H in Hs. symmetry. exact Hs.
  - intros [pre ->]. rewrite append_length. cbn [String.length].
    replace (String.length pre + 6 - 6) with (String.length pre) by lia.
    rewrite substring_after. reflexivity.
Qed.

Lemma search_index t : forall p,
  match search re_index p t with
  | Some (b, (e, rest, c)) =>
      rest = "" /\ exists pre, t = pre ++ "/index" /\ b = p + String.length pre
  | None => forall pre, t <> pre ++ "/index"
  end.
Proof.
  induction t as [|a t IH]; intros p.
  - cbn. intros [|? pre]; discriminate.
  - cbn [search]. rewrite matcher_index.
    destruct (String.eqb (String a t) "/index") eqn:Heq.
    + apply String.eqb_eq in Heq. split; [reflexivity|].
      exists "". split; [exact Heq|cbn; lia].
    + apply String.eqb_neq in Heq. specialize (IH (S p)).
      destruct (search re_index (S p) t) as [[b [[e rest] c]]|].
      * destruct IH as [Hrest (pre & -> & ->)]. split; [exact Hrest|].
        exists (String a pre). split; [reflexivity|cbn; lia].
      * intros [|a' pre] Hpre; [exact (Heq Hpre)|].
        injection Hpre as _ Hpre. exact (IH pre Hpre).
Qed.

(** Line 59 of the loader, in words. *)
Lemma replace_index s : replace re_index "" s = dropTrailingIndex s.
Proof.
  unfold replace, dropTrailingIndex.
  pose proof (search_index s 0) as H.
  destruct (search re_index 0 s) as [[b [[e rest] c]]|].
  - destruct H as [-> (pre & -> & ->)].
    replace (String.eqb _ "/index") with true
      by (symmetry; apply ends_with_index; eexists; reflexivity).
    rewrite append_length. cbn [String.length Nat.add GetSubstitution].
    replace (String.length pre + 6 - 6) with (String.length pre) by lia.
    rewrite substring_prefix. cbn [append]. apply append_empty_r.
  - destruct (String.eqb _ "/index") eqn:Heq; [|reflexivity].
    apply ends_with_index in Heq as [pre Hpre]. exfalso. exact (H pre Hpre).
Qed.

(** Lines 50-62 of the loader, in words: the relative path with a slash in
    front, without the first match of a dot and the extension pattern,
    without a trailing "/index", and the root route if nothing is left. *)
Lemma route_in_words h pagesDir resourcePath pageExtensionRegex :
  parameterizedRoute h pagesDir resourcePath pageExtensionRegex
  = (rel <-- Path.relative h pagesDir resourcePath ;;
     ext <-- RegExp_new ("\.(" ++ pageExtensionRegex ++ ")") ;;
     Normal (rootIfEmpty (dropTrailingIndex (replace ext "" ("/" ++ rel))))).
Proof.
  unfold parameterizedRoute.
  destruct (Path.relative h pagesDir resourcePath) as [rel| |]; cbn [obind]; try reflexivity.
  destruct (RegExp_new _) as [ext| |]; cbn [obind]; try reflexivity.
  rewrite replace_empty, replace_index, replace_whole_prepends_slash. reflexivity.
Qed.

(** *** Which code units a path can hold *)

Section PathCharacters.

Variable P : ascii -> bool.
Hypothesis P_slash : P "/" = true.
Hypothesis P_dot : P "." = true.

Lemma split_on_keeps isSep s :
  all_chars P s = true -> all_segments P (split_on isSep s).
Proof.
  induction s as [|a s IH]; intros Hs; cbn.
  - repeat constructor.
  - cbn in Hs. apply andb_true_iff in Hs as [Ha Hs]. specialize (IH Hs).
    destruct (isSep a).
    + constructor; [reflexivity|exact IH].
    + destruct (split_on isSep s) as [|seg rest].
      * repeat constructor. cbn. rewrite Ha. reflexivity.
      * inversion IH as [|? ? Hseg Hrest]; subst.
        constructor; [|exact Hrest]. cbn. rewrite Ha, Hseg. reflexivity.
Qed.

Lemma dots_keep : all_chars P ".." = true.
Proof. cbn. rewrite P_dot. reflexivity. Qed.

Lemma normalizeSegments_keeps allowAboveRoot segs : forall res,
  all_segments P segs -> all_segments P res ->
  all_segments P (normalizeSegments allowAboveRoot segs res).
Proof.
  induction segs as [|seg segs IH]; intros res Hsegs Hres; cbn.
  - apply Forall_rev. exact Hres.
  - inversion Hsegs as [|? ? Hseg Hsegs']; subst.
    destruct (String.eqb seg "" || String.eqb seg "."); [auto|].
    destruct (String.eqb seg "..").
    + destruct res as [|prev res'].
      * apply IH; [exact Hsegs'|].
        destruct allowAboveRoot; repeat constructor. exact dots_keep.
      * inversion Hres; subst.
        destruct (String.eqb prev "..").
        -- apply IH; [exact Hsegs'|].
           destruct allowAboveRoot; [constructor; [exact dots_keep|]|]; assumption.
        -- apply IH; assumption.
    + apply IH; [exact Hsegs'|]. constructor; assumption.
Qed.

Lemma concat_keeps sep segs :
  all_chars P sep = true -> all_segments P segs ->
  all_chars P (String.concat sep segs) = true.
Proof.
  intros Hsep. induction segs as [|seg segs IH]; intros Hsegs; [reflexivity|].
  inversion Hsegs as [|? ? Hseg Hsegs']; subst.
  cbn. destruct segs as [|seg' segs']; [exact Hseg|].
  rewrite !all_chars_app, Hseg, Hsep. cbn. apply IH. exact Hsegs'.
Qed.

Lemma posix_normalizeString_keeps path allowAboveRoot :
  all_chars P path = true ->
  all_chars P (posix_normalizeString path allowAboveRoot) = true.
Proof.
  intros Hp. unfold posix_normalizeString.
  apply concat_keeps.
  - cbn. rewrite P_slash. reflexivity.
  - apply normalizeSegments_keeps; [apply split_on_keeps; exact Hp|constructor].
Qed.

Lemma posix_resolve_step_keeps path acc :
  all_chars P path = true -> all_chars P (fst acc) = true ->
  all_chars P (fst (posix_resolve_step path acc)) = true.
Proof.
  intros Hp Hacc. unfold posix_resolve_step.
  destruct (snd acc); [exact Hacc|].
  destruct (String.eqb path ""); [exact Hacc|].
  cbn [fst]. rewrite !all_chars_app, Hp, Hacc. cbn. rewrite P_slash. reflexivity.
Qed.

Lemma posix_resolve_keeps cwd p :
  all_chars P cwd = true -> all_chars P p = true ->
  all_chars P (posix_resolve cwd p) = true.
Proof.
  intros Hcwd Hp. unfold posix_resolve.
  set (acc := posix_resolve_step cwd (posix_resolve_step p ("", false))).
  assert (Hacc : all_chars P (fst acc) = true).
  { apply posix_resolve_step_keeps; [exact Hcwd|].
    apply posix_resolve_step_keeps; [exact Hp|reflexivity]. }
  pose proof (posix_normalizeString_keeps (fst acc) (negb (snd acc)) Hacc) as Hn.
  destruct (snd acc).
  - rewrite all_chars_app, Hn. cbn. rewrite P_slash. reflexivity.
  - destruct (String.eqb _ ""); [cbn; rewrite P_dot; reflexivity|exact Hn].
Qed.

Lemma strip_common_keeps same from : forall to,
  all_segments P to -> all_segments P (snd (strip_common same from to)).
Proof.
  induction from as [|f from IH]; intros to Hto; cbn; [exact Hto|].
  destruct to as [|t to]; [exact Hto|].
  destruct (same f t); [|exact Hto].
  apply IH. inversion Hto; assumption.
Qed.

Lemma filter_keeps f segs : all_segments P segs -> all_segments P (filter f segs).
Proof.
  intros H. apply Forall_forall. intros x Hx.
  apply filter_In in Hx as [Hx _].
  revert x Hx. apply Forall_forall. exact H.
Qed.

Lemma ups_keep (from : list string) : all_segments P (List.map (fun _ => "..") from).
Proof.
  induction from; cbn; constructor; [exact dots_keep|assumption].
Qed.

Lemma posix_relative_keeps cwd from to rel :
  all_chars P cwd = true -> all_chars P from = true -> all_chars P to = true ->
  posix_relative cwd from to = Normal rel ->
  all_chars P rel = true.
Proof.
  intros Hcwd Hfrom Hto. unfold posix_relative.
  destruct (String.eqb from to); [intros [= <-]; reflexivity|].
  destruct (String.eqb _ _); [intros [= <-]; reflexivity|].
  destruct (_ && _); [|discriminate].
  intros [= <-].
  apply concat_keeps; [cbn; rewrite P_slash; reflexivity|].
  apply Forall_app. split; [apply ups_keep|].
  apply strip_common_keeps, filter_keeps, split_on_keeps.
  apply posix_resolve_keeps; assumption.
Qed.

End PathCharacters.

(** On a host with POSIX paths, when neither the working directory nor
    the pages directory nor the path of the file holds a backslash, the
    route the loader computes holds none. *)
Theorem posix_route_has_no_backslash cwd pagesDir resourcePath ext route :
  forwardSlashesOnly cwd = true ->
  forwardSlashesOnly pagesDir = true ->
  forwardSlashesOnly resourcePath = true ->
  parameterizedRoute (mkHost posix cwd) pagesDir resourcePath ext = Normal route ->
  forwardSlashesOnly route = true.
Proof.
  intros Hcwd Hdir Hpath. unfold parameterizedRoute, Path.relative. cbn [host_platform host_cwd].
  destruct (posix_relative cwd pagesDir resourcePath) as [rel| |] eqn:Hrel;
    cbn [obind]; try discriminate.
  destruct (RegExp_new _) as [re| |]; cbn [obind]; try discriminate.
  intros [= <-].
  assert (Hr : forwardSlashesOnly rel = true).
  { exact (posix_relative_keeps notBackslash eq_refl eq_refl cwd pagesDir
             resourcePath rel Hcwd Hdir Hpath Hrel). }
  unfold forwardSlashesOnly in *.
  apply replace_keeps with (lit := "/"); [reflexivity|reflexivity|].
  apply replace_keeps with (lit := ""); [reflexivity|reflexivity|].
  apply replace_keeps with (lit := ""); [reflexivity|reflexivity|].
  rewrite replace_whole_prepends_slash. cbn. exact Hr.
Qed.

Lemma posix_route_has_no_backslash_witness :
  forwardSlashesOnly "/blog" = true.
Proof.
  apply (posix_route_has_no_backslash "/home/build" "/app/pages"
           "/app/pages/blog/index.ts" "tsx|ts|jsx|js" "/blog").
  - reflexivity.
  - reflexivity.
  - reflexivity.
  - reflexivity.
Defined.

(** C5.  On a win32 host the relative path of
    [C:\app\pages\blog\index.ts] is [blog\index.ts]; the loader puts a slash
    in front and pulls the extension off, and no step turns the backslash
    into a slash: the route holds a backslash, and the trailing index
    segment, which the loader looks for behind a slash, stays, against the
    loader's own comment that an index page has the route of its
    directory. *)
Theorem win32_route_keeps_backslash :
  Path.relative Sample.win32Host "C:\app\pages" "C:\app\pages\blog\index.ts"
    = Normal "blog\index.ts"
  /\ parameterizedRoute Sample.win32Host "C:\app\pages" "C:\app\pages\blog\index.ts"
       "tsx|ts|jsx|js"
     = Normal "/blog\index"
  /\ forwardSlashesOnly "/blog\index" = false.
Proof. repeat split. Qed.

(** ** The matcher on examples *)

(** The example of the language specification for captures inside a loop. *)
Example captures_are_cleared_per_turn :
  replace_with "(z)((a+)?(b+)?(c))*" "<$1|$2|$3|$4|$5>" "zaacbbbcac"
  = Normal "<z|ac|a||c>".
Proof. reflexivity. Qed.

Example alternatives_are_tried_in_order :
  replace_with "(a|ab)(c|bcd)(d*)" "<$1,$2,$3>" "abcd" = Normal "<a,bcd,>".
Proof. reflexivity. Qed.

Example star_gives_back :
  replace_with "a*ab" "<$&>" "xaaab" = Normal "x<aaab>".
Proof. reflexivity. Qed.

Example default_pattern_on_a_test_file :
  replace_with "\.(tsx|ts|jsx|js)" "" "/a.test.tsx" = Normal "/a.test".
Proof. reflexivity. Qed.

Example global_replace_of_backslashes :
  replaceAll re_backslash "\\" "blog\index" = "blog\\index".
Proof. reflexivity. Qed.

(** ** The options handed to rollup *)

Lemma external_iff w u sm id :
  external (rollupOptions w u sm) id = true
  <-> id <> SENTRY_WRAPPER_MODULE_NAME /\ id <> WRAPPING_TARGET_MODULE_NAME.
Proof.
  cbn [external rollupOptions].
  rewrite andb_true_iff, !negb_true_iff, !String.eqb_neq. reflexivity.
Qed.

Lemma relative_helper_is_external w u sm :
  external (rollupOptions w u sm) "../../utils/helper" = true.
Proof. reflexivity. Qed.

Lemma path_rewriting_is_off w u sm :
  makeAbsoluteExternalsRelative (rollupOptions w u sm) = false.
Proof. reflexivity. Qed.

Lemma warnings_are_dropped w u sm warning :
  onwarn (rollupOptions w u sm) warning = [].
Proof. reflexivity. Qed.

(** ** The loader *)

Section LoaderFacts.

Variable host : Host.
Variable templates : Templates.
Variable stringMatchesSomePattern : string -> list Rule -> bool -> bool.
Variable RollupBuild : Type.
Variable rollup : RollupOptions -> settled RollupBuild.
Variable generate :
  RollupBuild -> OutputOptions -> settled (OutputChunk * list OutputChunk).

Abbreviation wrapUserCode := (Loader.wrapUserCode RollupBuild rollup generate).
Abbreviation invoke :=
  (Loader.invoke host templates stringMatchesSomePattern RollupBuild rollup generate).
Abbreviation routeOf := (Loader.routeOf host).
Abbreviation excludedBy := (Loader.excludedBy stringMatchesSomePattern).
Abbreviation middlewarePath := (Loader.middlewarePath host).
Abbreviation wrapperFor := (Loader.wrapperFor templates).
Abbreviation run_shape :=
  (Loader.run_shape host templates stringMatchesSomePattern RollupBuild rollup generate).

(** Unfolds one call of the loader down to its events. *)
Ltac run_loader :=
  unfold Loader.invoke, wrappingLoader, bind, emit, lift, ret, callback;
  cbn [app].

(** [wrapUserCode] logs its call and settles one way or the other. *)
Lemma wrapUserCode_run w u sm tr :
  (exists out, wrapUserCode w u sm tr = (Normal out, (tr ++ [WrapUserCode w u sm])%list)
               /\ fulfils (wrapUserCode w u sm) out)
  \/ (exists err, wrapUserCode w u sm tr = (Throw err, (tr ++ [WrapUserCode w u sm])%list)
                  /\ rejects (wrapUserCode w u sm) err).
Proof.
  unfold Loader.wrapUserCode, rejects, fulfils, bind, emit, await, ret.
  destruct (rollup (rollupOptions w u sm)) as [b|e]; cbn.
  - destruct (generate b _) as [out|e]; cbn.
    + left. exists (fst out). split; [reflexivity|intro; reflexivity].
    + right. exists e. split; [reflexivity|intro; reflexivity].
  - right. exists e. split; [reflexivity|intro; reflexivity].
Qed.

Lemma join_never_throws h parts e : Path.join h parts <> Throw e.
Proof.
  unfold Path.join, win32_join. destruct (host_platform h); try discriminate.
  destruct (filter nonEmpty parts); try discriminate.
  destruct (drive_root _) as [[d t]|]; discriminate.
Qed.

Lemma invoke_shape this userCode sm :
  run_shape this userCode sm (invoke this userCode sm).
Proof.
  run_loader. fold (routeOf this).
  destruct (routeOf this) as [route|e|] eqn:Hroute.
  - fold (excludedBy this route).
    destruct (excludedBy this route) eqn:Hex.
    + cbn [callbacks].
      pose proof (Excluded host templates stringMatchesSomePattern RollupBuild rollup
                    generate this userCode sm route Hroute Hex) as Hrun.
      destruct (callback_throws this [] None userCode sm); exact Hrun.
    + fold (middlewarePath this "middleware.js").
      fold (middlewarePath this "middleware.ts").
      destruct (middlewarePath this "middleware.js") as [mjs|e|] eqn:Hjs.
      * destruct (middlewarePath this "middleware.ts") as [mts|e|] eqn:Hts.
        -- fold (wrapperFor this route mjs mts).
           unfold catch_, then_, bind, emit.
           destruct (wrapUserCode_run (wrapperFor this route mjs mts) userCode sm [Async])
             as [(out & -> & Hout)|(err & -> & Herr)]; cbn [app callbacks].
           ++ destruct (callback_throws this [] None (code out) (map out)) as [e|] eqn:Hcb;
                cbn [callResult app callbacks fst snd].
              ** eapply LinkedCallbackThrew; eassumption.
              ** eapply Linked; eassumption.
           ++ eapply LinkRejected; eassumption.
        -- exfalso. exact (join_never_throws _ _ _ Hts).
        -- apply OutsideModel. right. exists route. auto.
      * exfalso. exact (join_never_throws _ _ _ Hjs).
      * apply OutsideModel. right. exists route. auto.
  - apply RouteThrows. assumption.
  - apply OutsideModel. left. assumption.
Qed.

Lemma settles_one_way {A : Type} (m : M A) (a : A) (err : JsError) :
  fulfils m a -> rejects m err -> False.
Proof.
  intros Hf Hr. specialize (Hf []). specialize (Hr []). congruence.
Qed.

Lemma rejects_unique {A : Type} (m : M A) (e1 e2 : JsError) :
  rejects m e1 -> rejects m e2 -> e1 = e2.
Proof.
  intros H1 H2. specialize (H1 []). specialize (H2 []). congruence.
Qed.

Lemma warning_names_file (path : string) (err : JsError) :
  exists pre post, warning path err = pre ++ path ++ post.
Proof.
  unfold warning. eexists. eexists. reflexivity.
Qed.

(** The run of an invocation whose link step rejects. *)
Lemma invoke_link_rejected this userCode sm w err :
  In (w, userCode, sm) (links (events (invoke this userCode sm))) ->
  rejects (wrapUserCode w userCode sm) err ->
  invoke this userCode sm =
    mkRun (Normal tt)
      (Some (callResult (callback_throws this [] None userCode sm)))
      [Async; WrapUserCode w userCode sm;
       ConsoleWarn (warning (resourcePath this) err);
       Callback None userCode sm].
Proof.
  intros Hin Hrej.
  destruct (invoke_shape this userCode sm)
    as [e _ | _ | route _ _ | route mjs mts out _ _ _ _ Hout _
        | route mjs mts out e _ _ _ _ Hout _
        | route mjs mts err' _ _ _ _ Herr];
    cbn in Hin; try contradiction.
  - destruct Hin as [Heq|[]]. inversion Heq; subst w.
    exfalso. eapply settles_one_way; eassumption.
  - destruct Hin as [Heq|[]]. inversion Heq; subst w.
    exfalso. eapply settles_one_way; eassumption.
  - destruct Hin as [Heq|[]]. inversion Heq; subst w.
    rewrite (rejects_unique _ _ _ Hrej Herr). reflexivity.
Qed.

(** C2.  Whenever the link operation [wrapUserCode], called by the loader
    with wrapper code [w] on the user's code and source map, rejects with
    [err], the invocation does exactly this: [this.async()], the call of
    [wrapUserCode], one [console.warn] whose message names the file, and
    [this.callback(null, userCode, userModuleSourceMap)] with the very
    inputs, as the first call of the callback; the loader returns normally
    and the promise chain settles as that call of the callback ends
    (fulfilled when it returns), so the error goes nowhere else. *)
Theorem link_failure_delivers_original this userCode sm w err :
  In (w, userCode, sm) (links (events (invoke this userCode sm))) ->
  rejects (wrapUserCode w userCode sm) err ->
  invoke this userCode sm =
    mkRun (Normal tt)
      (Some (callResult (callback_throws this [] None userCode sm)))
      [Async; WrapUserCode w userCode sm;
       ConsoleWarn (warning (resourcePath this) err);
       Callback None userCode sm]
  /\ callbacks (events (invoke this userCode sm)) = [(None, userCode, sm)]
  /\ warnings (events (invoke this userCode sm)) = [warning (resourcePath this) err]
  /\ exists pre post, warning (resourcePath this) err = pre ++ resourcePath this ++ post.
Proof.
  intros Hin Hrej.
  pose proof (invoke_link_rejected this userCode sm w err Hin Hrej) as Hrun.
  rewrite Hrun. cbn.
  repeat split; apply warning_names_file.
Qed.


(** C7.  For a file that is not excluded, [wrapUserCode] is called once,
    with the route injected into one template [tpl], chosen in this order:
    the API template when the route starts with "/api", whatever the file
    path is; else the middleware template when the file path is one of the
    two middleware paths; else the page template. *)
Theorem template_selection_priority this userCode sm route mjs mts :
  routeOf this = Normal route ->
  excludedBy this route = false ->
  middlewarePath this "middleware.js" = Normal mjs ->
  middlewarePath this "middleware.ts" = Normal mts ->
  exists tpl,
    links (events (invoke this userCode sm)) = [(injectRoute route tpl, userCode, sm)]
    /\ (String.prefix "/api" route = true -> tpl = apiWrapperTemplateCode templates)
    /\ (String.prefix "/api" route = false ->
        resourcePath this = mjs \/ resourcePath this = mts ->
        tpl = middlewareWrapperTemplateCode templates)
    /\ (String.prefix "/api" route = false ->
        resourcePath this <> mjs -> resourcePath this <> mts ->
        tpl = pageWrapperTemplateCode templates).
Proof.
  intros Hroute Hex Hjs Hts.
  exists (selectTemplate templates route (resourcePath this) mjs mts).
  split.
  - destruct (invoke_shape this userCode sm)
      as [e He | Hout | r Hr Hx | r j t out Hr Hx Hj Ht _ _
          | r j t out e Hr Hx Hj Ht _ _ | r j t err Hr Hx Hj Ht _].
    + congruence.
    + destruct Hout as [Hu|(r & Hr & _ & [Hu|Hu])]; congruence.
    + assert (r = route) by congruence. subst r. congruence.
    + assert (r = route) by congruence. assert (j = mjs) by congruence.
      assert (t = mts) by congruence. subst. reflexivity.
    + assert (r = route) by congruence. assert (j = mjs) by congruence.
      assert (t = mts) by congruence. subst. reflexivity.
    + assert (r = route) by congruence. assert (j = mjs) by congruence.
      assert (t = mts) by congruence. subst. reflexivity.
  - unfold selectTemplate. repeat split.
    + intros ->. reflexivity.
    + intros -> [Heq|Heq].
      * apply String.eqb_eq in Heq. rewrite Heq. reflexivity.
      * apply String.eqb_eq in Heq. rewrite Heq, orb_true_r. reflexivity.
    + intros -> Hn1 Hn2.
      apply String.eqb_neq in Hn1. apply String.eqb_neq in Hn2.
      rewrite Hn1, Hn2. reflexivity.
Qed.



End LoaderFacts.

Import Sample.

Lemma link_failure_delivers_original_witness :
  let this := loaderThis "/app/pages/api/users.ts" defaultExtensions [] in
  let run := invoke posixHost sampleTemplates matchesSomeRule unit rollup_fails generate_ok
               this "export default 1" (Some "{}") in
  let err := mkError "Error" "Unexpected token" in
  run = mkRun (Normal tt) (Some (Normal tt))
          [Async;
           WrapUserCode
             "api(/api/users); export * from '__SENTRY_WRAPPING_TARGET_FILE__.cjs';"
             "export default 1" (Some "{}");
           ConsoleWarn (warning "/app/pages/api/users.ts" err);
           Callback None "export default 1" (Some "{}")]
  /\ callbacks (events run) = [(None, "export default 1", Some "{}")]
  /\ warnings (events run) = [warning "/app/pages/api/users.ts" err]
  /\ exists pre post,
       warning "/app/pages/api/users.ts" err = pre ++ "/app/pages/api/users.ts" ++ post.
Proof.
  apply (link_failure_delivers_original posixHost sampleTemplates matchesSomeRule unit
           rollup_fails generate_ok
           (loaderThis "/app/pages/api/users.ts" defaultExtensions [])
           "export default 1" (Some "{}")
           "api(/api/users); export * from '__SENTRY_WRAPPING_TARGET_FILE__.cjs';"
           (mkError "Error" "Unexpected token")).
  - vm_compute. left. reflexivity.
  - intro tr. reflexivity.
Defined.


Lemma template_selection_priority_witness :
  let this := loaderThis "/app/pages/api/users.ts" defaultExtensions [] in
  exists tpl,
    links (events (invoke posixHost sampleTemplates matchesSomeRule unit rollup_ok generate_ok
                     this "export default 1" None))
    = [(injectRoute "/api/users" tpl, "export default 1", None)]
    /\ (String.prefix "/api" "/api/users" = true ->
        tpl = apiWrapperTemplateCode sampleTemplates)
    /\ (String.prefix "/api" "/api/users" = false ->
        resourcePath this = "/app/middleware.js" \/ resourcePath this = "/app/middleware.ts" ->
        tpl = middlewareWrapperTemplateCode sampleTemplates)
    /\ (String.prefix "/api" "/api/users" = false ->
        resourcePath this <> "/app/middleware.js" ->
        resourcePath this <> "/app/middleware.ts" ->
        tpl = pageWrapperTemplateCode sampleTemplates).
Proof.
  apply (template_selection_priority posixHost sampleTemplates matchesSomeRule unit
           rollup_ok generate_ok
           (loaderThis "/app/pages/api/users.ts" defaultExtensions [])
           "export default 1" None "/api/users"
           "/app/middleware.js" "/app/middleware.ts").
  - vm_compute. reflexivity.
  - vm_compute. reflexivity.
  - vm_compute. reflexivity.
  - vm_compute. reflexivity.
Defined.





(** *** The choice of the template on examples *)

Example middleware_file_gets_the_middleware_template :
  links (events (invoke posixHost sampleTemplates matchesSomeRule unit rollup_ok
                   generate_ok (loaderThis "/app/middleware.ts" defaultExtensions [])
                   "export default 1" None))
  = [("mw(/../middleware); export * from '__SENTRY_WRAPPING_TARGET_FILE__.cjs';",
      "export default 1", None)].
Proof. reflexivity. Qed.

Example page_file_gets_the_page_template :
  links (events (invoke posixHost sampleTemplates matchesSomeRule unit rollup_ok
                   generate_ok (loaderThis "/app/pages/blog/index.tsx" defaultExtensions [])
                   "export default 1" None))
  = [("page(/blog); export * from '__SENTRY_WRAPPING_TARGET_FILE__.cjs';",
      "export default 1", None)].
Proof. reflexivity. Qed.

Example apiary_page_gets_the_api_template :
  links (events (invoke posixHost sampleTemplates matchesSomeRule unit rollup_ok
                   generate_ok (loaderThis "/app/pages/apiary.tsx" defaultExtensions [])
                   "export default 1" None))
  = [("api(/apiary); export * from '__SENTRY_WRAPPING_TARGET_FILE__.cjs';",
      "export default 1", None)].
Proof. reflexivity. Qed.

(** *** The route computation on examples *)

Example route_of_root_index :
  parameterizedRoute posixHost "/app/pages" "/app/pages/index.ts" defaultExtensions
  = Normal "/".
Proof. reflexivity. Qed.

Example route_of_nested_index :
  parameterizedRoute posixHost "/app/pages" "/app/pages/blog/index.ts" defaultExtensions
  = Normal "/blog".
Proof. reflexivity. Qed.

Example route_of_api_file :
  parameterizedRoute posixHost "/app/pages" "/app/pages/api/users.ts" defaultExtensions
  = Normal "/api/users".
Proof. reflexivity. Qed.

Example re_whole_source : RegExp_new "(.*)" = Normal re_whole.
Proof. reflexivity. Qed.

Example re_index_source : RegExp_new "\/index$" = Normal re_index.
Proof. reflexivity. Qed.

Example re_empty_source : RegExp_new "^$" = Normal re_empty.
Proof. reflexivity. Qed.

Example re_route_source : RegExp_new "__ROUTE__" = Normal re_route.
Proof. reflexivity. Qed.

Example re_target_source : RegExp_new "__SENTRY_WRAPPING_TARGET_FILE__" = Normal re_target.
Proof. reflexivity. Qed.

(** C4.  The pattern "js|jsx" is what the page extensions [js, jsx] give.
    The file [about.jsx] has the extension jsx, which the pattern accepts,
    and the steps in words, applied to the path without its extension, give
    "/about".  The loader instead matches the unanchored expression at ".js"
    first: only that is pulled off, and the route keeps the x. *)
Theorem jsx_route_keeps_a_letter :
  (whole <-- RegExp_new "^(js|jsx)$" ;; Normal (RegExp.test whole "jsx")) = Normal true
  /\ Path.relative posixHost "/app/pages" "/app/pages/about.jsx" = Normal "about.jsx"
  /\ rootIfEmpty (dropTrailingIndex ("/" ++ "about")) = "/about"
  /\ parameterizedRoute posixHost "/app/pages" "/app/pages/about.jsx" "js|jsx"
     = Normal "/aboutx".
Proof. repeat split. Qed.

(** A second case of the same: an earlier part of the path that looks like
    an extension is removed instead of the extension of the file. *)
Example inner_extension_is_removed :
  parameterizedRoute posixHost "/app/pages" "/app/pages/v1.js/users.ts" defaultExtensions
  = Normal "/v1/users.ts".
Proof. reflexivity. Qed.

Section WrapperFacts.

Variable Context Result Bookkeeping : Type.
Variable bookkeep : Context -> Bookkeeping -> Bookkeeping.
Variable onRejected : Context -> JsError -> Wrappers.Promise Bookkeeping Result.

(** C9.  The wrapped function has the type of the original one, and when
    the original, called with the context after the bookkeeping, fulfils
    with [props], the wrapped function fulfils with the same [props]. *)
Theorem wrapped_returns_original_result
    (orig : Wrappers.Fn Context Result Bookkeeping) (context : Context)
    (w w' : Bookkeeping) (props : Result) :
  orig context (bookkeep context w) = (Fulfilled props, w') ->
  Wrappers.WrappedFn Context Result Bookkeeping = Wrappers.Fn Context Result Bookkeeping
  /\ Wrappers.withSentryGetServerSideProps Context Result Bookkeeping bookkeep onRejected
       orig context w
     = (Fulfilled props, w').
Proof.
  intros Horig. split; [reflexivity|].
  unfold Wrappers.withSentryGetServerSideProps, Wrappers.callOriginal.
  rewrite Horig. reflexivity.
Qed.

End WrapperFacts.

Lemma wrapped_returns_original_result_witness :
  Wrappers.WrappedFn nat nat (list string) = Wrappers.Fn nat nat (list string)
  /\ Wrappers.withSentryGetServerSideProps nat nat (list string)
       (fun _ w => ("span" :: w)%list)
       (fun _ e w => (Rejected e, w))
       (fun context w => (Fulfilled (context + 1), w)) 41 []
     = (Fulfilled 42, ["span"]).
Proof.
  apply (wrapped_returns_original_result nat nat (list string)
           (fun _ w => ("span" :: w)%list)
           (fun _ e w => (Rejected e, w))
           (fun context w => (Fulfilled (context + 1), w)) 41 [] ["span"] 42).
  reflexivity.
Defined.

(** * Further properties *)

(** ** The route *)

(** X4.  Lines 50-62 in words, for every host, path and pattern: the
    relative path with a slash in front, without the first match of a dot
    and the extension pattern, without one trailing "/index", and "/" if
    nothing is left; an exception of [path.relative] or of the [RegExp]
    constructor is the outcome of the whole. *)
Theorem route_steps_in_words h pagesDir resourcePath pageExtensionRegex :
  parameterizedRoute h pagesDir resourcePath pageExtensionRegex
  = (rel <-- Path.relative h pagesDir resourcePath ;;
     ext <-- RegExp_new ("\.(" ++ pageExtensionRegex ++ ")") ;;
     Normal (rootIfEmpty (dropTrailingIndex (replace ext "" ("/" ++ rel))))).
Proof. exact (route_in_words h pagesDir resourcePath pageExtensionRegex). Qed.

Lemma search_from r : forall t p b z, search r p t = Some (b, z) -> p <= b.
Proof.
  induction t as [|a t IH]; intros p b z H; cbn in H.
  - destruct (matcher r accept p "" []); [|discriminate]. injection H as <- _. lia.
  - destruct (matcher r accept p (String a t) []).
    + injection H as <- _. lia.
    + apply IH in H. lia.
Qed.

Lemma dropTrailingIndex_slash s :
  dropTrailingIndex (String "/" s) = ""
  \/ exists tl, dropTrailingIndex (String "/" s) = String "/" tl.
Proof.
  unfold dropTrailingIndex.
  destruct (String.eqb _ "/index"); [|right; eexists; reflexivity].
  cbn [String.length].
  destruct (S (String.length s) - 6) as [|k]; [left; reflexivity|].
  right. eexists. reflexivity.
Qed.

(** X5.  When the source built from the extension pattern parses as a dot
    followed by something (which it does whenever the brackets of the
    pattern are balanced), the route begins with a slash. *)
Theorem route_starts_with_a_slash h pagesDir resourcePath ext g route :
  RegExp_new ("\.(" ++ ext ++ ")") = Normal (Seq (Chr ".") g) ->
  parameterizedRoute h pagesDir resourcePath ext = Normal route ->
  exists tl, route = String "/" tl.
Proof.
  intros Hext. rewrite route_in_words.
  destruct (Path.relative h pagesDir resourcePath) as [rel| |]; cbn [obind]; try discriminate.
  rewrite Hext. cbn [obind]. intros [= <-].
  cbn [append].
  assert (Hs : exists tl, replace (Seq (Chr ".") g) "" (String "/" rel) = String "/" tl).
  { unfold replace. cbn [search matcher Ascii.eqb].
    change (Ascii.eqb "." "/") with false. cbn iota.
    destruct (search (Seq (Chr ".") g) 1 rel) as [[b [[e rest] c]]|] eqn:Hsearch;
      [|eexists; reflexivity].
    apply search_from in Hsearch. destruct b as [|b]; [lia|].
    eexists. reflexivity. }
  destruct Hs as [tl ->].
  destruct (dropTrailingIndex_slash tl) as [->|[tl' ->]]; eexists; reflexivity.
Qed.

(** *** Literal patterns *)

Lemma prefix_cons a b s t :
  String.prefix (String a s) (String b t)
  = if Ascii.eqb a b then String.prefix s t else false.
Proof.
  cbn. destruct (ascii_dec a b) as [->|Hn].
  - rewrite Ascii.eqb_refl. reflexivity.
  - apply Ascii.eqb_neq in Hn. rewrite Hn. reflexivity.
Qed.

Lemma prefix_empty s : String.prefix "" s = true.
Proof. destruct s; reflexivity. Qed.

Lemma matcher_literal pat : pat <> "" -> forall k p t c,
  matcher (re_literal pat) k p t c
  = if String.prefix pat t
    then k (p + String.length pat) (drop (String.length pat) t) c
    else None.
Proof.
  induction pat as [|a pat IH]; intros Hne k p t c; [congruence|].
  destruct pat as [|a' pat].
  - cbn [re_literal matcher String.length].
    destruct t as [|b t]; [reflexivity|].
    rewrite prefix_cons, prefix_empty.
    destruct (Ascii.eqb a b); [|reflexivity].
    cbn [drop]. replace (p + 1) with (S p) by lia. reflexivity.
  - change (re_literal (String a (String a' pat)))
      with (Seq (Chr a) (re_literal (String a' pat))).
    cbn [matcher].
    destruct t as [|b t]; [reflexivity|].
    rewrite prefix_cons.
    destruct (Ascii.eqb a b); [|reflexivity].
    rewrite IH by discriminate.
    destruct (String.prefix (String a' pat) t); [|reflexivity].
    cbn [String.length drop].
    replace (S p + S (String.length pat)) with (p + S (S (String.length pat))) by lia.
    reflexivity.
Qed.

Lemma search_literal pat : pat <> "" -> forall t p,
  search (re_literal pat) p t
  = if String.prefix pat t
    then Some (p, (p + String.length pat, drop (String.length pat) t, []))
    else match t with
         | EmptyString => None
         | String _ t' => search (re_literal pat) (S p) t'
         end.
Proof.
  intros Hne t p.
  destruct t as [|a t]; cbn [search]; rewrite (matcher_literal pat Hne);
    destruct (String.prefix pat _); reflexivity.
Qed.

(** ** Literal patterns with the flag [g] *)

Lemma substitute_skip pat by_ : forall k s,
  substitute pat by_ k s = substitute pat by_ 0 (drop k s).
Proof.
  induction k as [|k IH]; intros s.
  - destruct s; reflexivity.
  - destruct s as [|a s]; [reflexivity|]. cbn [substitute drop]. apply IH.
Qed.

Lemma drop_length n : forall s, String.length (drop n s) <= String.length s.
Proof.
  induction n as [|n IH]; intros [|a s]; cbn; try lia.
  specialize (IH s). lia.
Qed.

Lemma GetSubstitution_plain matched str position cs template :
  all_chars notDollar template = true ->
  GetSubstitution matched str position cs template = template.
Proof.
  induction template as [|a template IH]; intros H; [reflexivity|].
  cbn in H. apply andb_true_iff in H as [Ha H]. specialize (IH H).
  destruct a as [[] [] [] [] [] [] [] []]; try discriminate Ha;
    cbn [GetSubstitution]; rewrite IH; reflexivity.
Qed.

Lemma replace_from_literal pat template whole :
  pat <> "" ->
  all_chars notDollar template = true ->
  forall fuel t p,
    String.length t < fuel ->
    replace_from fuel (re_literal pat) template whole p t = substitute pat template 0 t.
Proof.
  intros Hne Htpl.
  assert (Hlen : 0 < String.length pat) by (destruct pat; [congruence|cbn; lia]).
  induction fuel as [|fuel IHfuel]; intros t p Hfuel; [lia|].
  revert p Hfuel. induction t as [|a t IHt]; intros p Hfuel.
  - cbn [replace_from]. rewrite (search_literal pat Hne).
    destruct pat; [congruence|]. reflexivity.
  - cbn [replace_from substitute]. rewrite (search_literal pat Hne).
    destruct (String.prefix pat (String a t)) eqn:Hpre.
    + rewrite Nat.sub_diag, substring_0_0, GetSubstitution_plain by exact Htpl.
      replace (Nat.eqb (p + String.length pat) p) with false
        by (symmetry; apply Nat.eqb_neq; lia).
      cbn [append]. f_equal.
      rewrite IHfuel.
      * rewrite (substitute_skip pat template (String.length pat - 1) t).
        destruct (String.length pat) as [|n]; [lia|].
        replace (S n - 1) with n by lia. reflexivity.
      * pose proof (drop_length (String.length pat) (String a t)) as Hd.
        destruct (String.length pat) as [|n]; [lia|]. cbn [drop] in *.
        pose proof (drop_length n t). cbn in Hfuel. lia.
    + specialize (IHt (S p)).
      cbn [replace_from] in IHt.
      destruct (search (re_literal pat) (S p) t) as [[b [[e rest] c]]|] eqn:Hsearch.
      * pose proof (search_from _ _ _ _ _ Hsearch) as Hb.
        replace (b - p) with (S (b - S p)) by lia.
        cbn [substring append]. f_equal. apply IHt. cbn in Hfuel. lia.
      * f_equal. apply IHt. cbn in Hfuel. lia.
Qed.

(** [replace] with flag [g], a literal pattern and a template without
    dollar signs is plain text replacement. *)
Lemma replaceAll_literal pat template s :
  pat <> "" ->
  all_chars notDollar template = true ->
  replaceAll (re_literal pat) template s = replaceEvery pat template s.
Proof.
  intros Hne Htpl. unfold replaceAll, replaceEvery.
  apply replace_from_literal; [assumption|assumption|lia].
Qed.

(** ** The two substitutions *)

Lemma replaceEvery_backslash s : replaceEvery "\" "\\" s = doubleBackslashes s.
Proof.
  unfold replaceEvery.
  induction s as [|a s IH]; [reflexivity|].
  cbn [substitute doubleBackslashes]. rewrite prefix_cons, prefix_empty.
  rewrite Ascii.eqb_sym. destruct (Ascii.eqb a "\"); cbn; rewrite IH; reflexivity.
Qed.

Lemma doubleBackslashes_none s :
  forwardSlashesOnly s = true -> doubleBackslashes s = s.
Proof.
  unfold forwardSlashesOnly, notBackslash.
  induction s as [|a s IH]; intros H; [reflexivity|].
  cbn in *. apply andb_true_iff in H as [Ha H].
  apply negb_true_iff in Ha. rewrite Ha, IH by exact H. reflexivity.
Qed.

Lemma doubleBackslashes_no_dollar s :
  all_chars notDollar s = true -> all_chars notDollar (doubleBackslashes s) = true.
Proof.
  induction s as [|a s IH]; intros H; [reflexivity|].
  cbn in *. apply andb_true_iff in H as [Ha H]. specialize (IH H).
  destruct (Ascii.eqb a "\"); cbn; rewrite ?Ha, IH; reflexivity.
Qed.

Lemma escape_doubles route :
  replaceAll re_backslash "\\" route = doubleBackslashes route.
Proof.
  change re_backslash with (re_literal "\").
  rewrite replaceAll_literal; [apply replaceEvery_backslash|discriminate|reflexivity].
Qed.

(** X8.  The escaping of line 83 writes every backslash of the route
    twice and leaves every other code unit as it is. *)
Theorem escaping_doubles_backslashes route :
  replaceAll re_backslash "\\" route = doubleBackslashes route.
Proof. exact (escape_doubles route). Qed.

Lemma injectRoute_plain route templateCode :
  all_chars notDollar route = true ->
  injectRoute route templateCode
  = replaceEvery "__SENTRY_WRAPPING_TARGET_FILE__" WRAPPING_TARGET_MODULE_NAME
      (replaceEvery "__ROUTE__" (doubleBackslashes route) templateCode).
Proof.
  intros Hroute. unfold injectRoute, re_target, re_route.
  rewrite escape_doubles.
  rewrite (replaceAll_literal "__ROUTE__");
    [|discriminate|apply doubleBackslashes_no_dollar; exact Hroute].
  rewrite (replaceAll_literal "__SENTRY_WRAPPING_TARGET_FILE__");
    [reflexivity|discriminate|reflexivity].
Qed.

(** X9.  For a route without a dollar sign, lines 83 and 86 are two plain
    text replacements: every "__ROUTE__" of the template becomes the route
    with its backslashes doubled, and then every
    "__SENTRY_WRAPPING_TARGET_FILE__" of the result becomes the name of the
    virtual target module. *)
Theorem injection_is_plain_replacement route templateCode :
  all_chars notDollar route = true ->
  injectRoute route templateCode
  = replaceEvery "__SENTRY_WRAPPING_TARGET_FILE__" WRAPPING_TARGET_MODULE_NAME
      (replaceEvery "__ROUTE__" (doubleBackslashes route) templateCode).
Proof. exact (injectRoute_plain route templateCode). Qed.

Lemma search_absent pat : pat <> "" -> forall t p,
  occursIn pat t = false -> search (re_literal pat) p t = None.
Proof.
  intros Hne. induction t as [|a t IH]; intros p H;
    rewrite (search_literal pat Hne); cbn [occursIn] in H;
    apply orb_false_iff in H as [-> H]; [reflexivity|].
  apply IH. exact H.
Qed.

Lemma replaceAll_absent pat template t :
  pat <> "" -> occursIn pat t = false -> replaceAll (re_literal pat) template t = t.
Proof.
  intros Hne H. unfold replaceAll. cbn [replace_from].
  rewrite (search_absent pat Hne t 0 H). reflexivity.
Qed.

(** X10.  A template in which neither placeholder occurs comes out of
    lines 83 and 86 unchanged, whatever the route is. *)
Theorem template_without_placeholders_is_kept route templateCode :
  occursIn "__ROUTE__" templateCode = false ->
  occursIn "__SENTRY_WRAPPING_TARGET_FILE__" templateCode = false ->
  injectRoute route templateCode = templateCode.
Proof.
  intros Hr Ht. unfold injectRoute, re_target, re_route.
  rewrite (replaceAll_absent "__ROUTE__"); [|discriminate|exact Hr].
  apply replaceAll_absent; [discriminate|exact Ht].
Qed.

Lemma posix_route_keeps (P : ascii -> bool) cwd pagesDir resourcePath ext route :
  P "/"%char = true -> P "."%char = true ->
  all_chars P cwd = true ->
  all_chars P pagesDir = true ->
  all_chars P resourcePath = true ->
  parameterizedRoute (mkHost posix cwd) pagesDir resourcePath ext = Normal route ->
  all_chars P route = true.
Proof.
  intros Hslash Hdot Hcwd Hdir Hpath. unfold parameterizedRoute, Path.relative.
  cbn [host_platform host_cwd].
  destruct (posix_relative cwd pagesDir resourcePath) as [rel| |] eqn:Hrel;
    cbn [obind]; try discriminate.
  destruct (RegExp_new _) as [re| |]; cbn [obind]; try discriminate.
  intros [= <-].
  pose proof (posix_relative_keeps P Hslash Hdot cwd pagesDir resourcePath rel
                Hcwd Hdir Hpath Hrel) as Hr.
  apply replace_keeps with (lit := "/"); [reflexivity|cbn; rewrite Hslash; reflexivity|].
  apply replace_keeps with (lit := ""); [reflexivity|reflexivity|].
  apply replace_keeps with (lit := ""); [reflexivity|reflexivity|].
  rewrite replace_whole_prepends_slash. cbn. rewrite Hslash. exact Hr.
Qed.

(** X11.  On a host with POSIX paths the route is made of the code units
    of the working directory, the pages directory and the path of the file,
    plus slash and dot: for every class of code units that holds slash and
    dot and all code units of the three, the route stays inside the class. *)
Theorem posix_route_code_units (P : ascii -> bool) cwd pagesDir resourcePath ext route :
  P "/"%char = true -> P "."%char = true ->
  all_chars P cwd = true ->
  all_chars P pagesDir = true ->
  all_chars P resourcePath = true ->
  parameterizedRoute (mkHost posix cwd) pagesDir resourcePath ext = Normal route ->
  all_chars P route = true.
Proof. exact (posix_route_keeps P cwd pagesDir resourcePath ext route). Qed.

Lemma plain_split s :
  all_chars plainCodeUnit s = true ->
  all_chars notDollar s = true /\ forwardSlashesOnly s = true.
Proof.
  unfold forwardSlashesOnly, plainCodeUnit.
  induction s as [|a s IH]; intros H; [split; reflexivity|].
  cbn in *. apply andb_true_iff in H as [Ha H].
  apply andb_true_iff in Ha as [-> ->]. destruct (IH H) as [-> ->]. split; reflexivity.
Qed.

(** X12.  On a host with POSIX paths, when working directory, pages
    directory and file path hold neither a dollar sign nor a backslash, the
    route goes into the template as it is: every "__ROUTE__" becomes the
    route itself. *)
Theorem posix_route_is_injected_verbatim cwd pagesDir resourcePath ext route templateCode :
  all_chars plainCodeUnit cwd = true ->
  all_chars plainCodeUnit pagesDir = true ->
  all_chars plainCodeUnit resourcePath = true ->
  parameterizedRoute (mkHost posix cwd) pagesDir resourcePath ext = Normal route ->
  injectRoute route templateCode
  = replaceEvery "__SENTRY_WRAPPING_TARGET_FILE__" WRAPPING_TARGET_MODULE_NAME
      (replaceEvery "__ROUTE__" route templateCode).
Proof.
  intros Hcwd Hdir Hpath Hroute.
  pose proof (posix_route_keeps plainCodeUnit cwd pagesDir resourcePath ext route
                eq_refl eq_refl Hcwd Hdir Hpath Hroute) as Hplain.
  apply plain_split in Hplain as [Hd Hb].
  rewrite injectRoute_plain by exact Hd.
  rewrite doubleBackslashes_none by exact Hb. reflexivity.
Qed.

(** ** Page extensions *)

Lemma parse_alnum source a s cur stack n :
  isAlnum a = true ->
  parse source (String a s) cur stack n
  = parse source s (push_term cur (Chr a) LAtom) stack n.
Proof.
  intros Ha.
  destruct a as [[] [] [] [] [] [] [] []]; try discriminate Ha; reflexivity.
Qed.

Lemma parse_literal source lit : forall rest cur stack n,
  all_chars isAlnum lit = true ->
  parse source (lit ++ rest) cur stack n
  = parse source rest (push_literal lit cur) stack n.
Proof.
  induction lit as [|a lit IH]; intros rest cur stack n H; [reflexivity|].
  cbn in H. apply andb_true_iff in H as [Ha H].
  cbn [append push_literal]. rewrite parse_alnum by exact Ha. apply IH. exact H.
Qed.

Lemma push_literal_frame lit : forall f,
  lit <> "" ->
  f_alts (push_literal lit f) = f_alts f
  /\ f_group (push_literal lit f) = f_group f
  /\ seq_of (f_terms (push_literal lit f)) = seq_onto (f_terms f) (re_literal lit).
Proof.
  induction lit as [|a lit IH]; intros f Hne; [congruence|].
  destruct lit as [|b lit].
  - cbn. auto.
  - cbn [push_literal].
    destruct (IH (push_term f (Chr a) LAtom)) as (Ha & Hg & Hs); [discriminate|].
    cbn [push_literal] in *. rewrite Ha, Hg, Hs. cbn. auto.
Qed.

Lemma append_assoc3 a b c : (a ++ b) ++ c = a ++ (b ++ c).
Proof. induction a; cbn; congruence. Qed.

Lemma parse_open source a s cur stack n :
  isAlnum a = true ->
  parse source (String "(" (String a s)) cur stack n
  = parse source (String a s) (mkFrame [] [] LNone (Some (S n))) (cur :: stack) (S n).
Proof.
  intros Ha.
  destruct a as [[] [] [] [] [] [] [] []]; try discriminate Ha; reflexivity.
Qed.

Lemma plainExtension_inv e :
  plainExtension e = true -> all_chars isAlnum e = true /\ e <> "".
Proof.
  unfold plainExtension. intros H. apply andb_true_iff in H as [Ha Hn].
  split; [exact Ha|]. apply negb_true_iff, String.eqb_neq in Hn. exact Hn.
Qed.

Lemma parse_alternatives source : forall exts acc outer,
  exts <> [] ->
  forallb plainExtension exts = true ->
  parse source (String.concat "|" exts ++ ")") (mkFrame acc [] LNone (Some 1)) [outer] 1
  = Normal (close_frame (push_term outer (Group 1 (alt_of acc (alternation exts))) LAtom)).
Proof.
  induction exts as [|e exts IH]; intros acc outer Hne Hall; [congruence|].
  cbn [forallb] in Hall. apply andb_true_iff in Hall as [He Hall].
  apply plainExtension_inv in He as [Halnum Hnonempty].
  destruct (push_literal_frame e (mkFrame acc [] LNone (Some 1)) Hnonempty)
    as (Halts & Hgroup & Hseq).
  cbn [f_alts f_group f_terms seq_onto fold_left] in Halts, Hgroup, Hseq.
  destruct exts as [|e2 exts].
  - cbn [String.concat alternation].
    rewrite parse_literal by exact Halnum.
    cbn [parse]. unfold close_frame at 2. rewrite Halts, Hgroup, Hseq. reflexivity.
  - change (String.concat "|" (e :: e2 :: exts))
      with (e ++ "|" ++ String.concat "|" (e2 :: exts)).
    rewrite append_assoc3. rewrite parse_literal by exact Halnum.
    cbn [append parse]. rewrite Halts, Hgroup, Hseq.
    rewrite IH; [reflexivity|discriminate|exact Hall].
Qed.

Lemma parse_escaped_dot source s cur stack n :
  parse source (String "\" (String "." s)) cur stack n
  = parse source s (push_term cur (Chr ".") LAtom) stack n.
Proof. reflexivity. Qed.

(** The pattern that a list of plain page extensions gives. *)
Lemma parse_extensions exts :
  exts <> [] ->
  forallb plainExtension exts = true ->
  RegExp_new ("\.(" ++ String.concat "|" exts ++ ")")
  = Normal (Seq (Chr ".") (Group 1 (alternation exts))).
Proof.
  intros Hne Hall. unfold RegExp_new.
  set (source := "\.(" ++ String.concat "|" exts ++ ")").
  change source with (String "\" (String "." (String "(" (String.concat "|" exts ++ ")")))).
  rewrite parse_escaped_dot.
  destruct exts as [|e exts]; [congruence|].
  pose proof Hall as Hall'. cbn [forallb] in Hall'.
  apply andb_true_iff in Hall' as [He _].
  apply plainExtension_inv in He as [Halnum Hnonempty].
  destruct e as [|a e]; [congruence|].
  cbn in Halnum. apply andb_true_iff in Halnum as [Ha _].
  assert (Hshape : exists s, String.concat "|" (String a e :: exts) ++ ")" = String a s).
  { destruct exts; cbn; eexists; reflexivity. }
  destruct Hshape as [s Hs]. rewrite Hs. rewrite parse_open by exact Ha. rewrite <- Hs.
  rewrite (parse_alternatives _ _ _ _ Hne Hall). reflexivity.
Qed.

Lemma matcher_alternation : forall exts (k : cont) p t c,
  exts <> [] ->
  forallb plainExtension exts = true ->
  (forall p t c, k p t c <> None) ->
  matcher (alternation exts) k p t c
  = match firstPrefix exts t with
    | Some a => k (p + String.length a) (drop (String.length a) t) c
    | None => None
    end.
Proof.
  induction exts as [|e exts IH]; intros k p t c Hne Hall Hk; [congruence|].
  cbn [forallb] in Hall. apply andb_true_iff in Hall as [He Hall].
  apply plainExtension_inv in He as [_ Hnonempty].
  unfold firstPrefix. cbn [find].
  destruct exts as [|e2 exts].
  - cbn [alternation find]. rewrite (matcher_literal e Hnonempty).
    destruct (String.prefix e t); reflexivity.
  - change (alternation (e :: e2 :: exts))
      with (Alt (re_literal e) (alternation (e2 :: exts))).
    cbn [matcher]. rewrite (matcher_literal e Hnonempty).
    destruct (String.prefix e t).
    + destruct (k (p + String.length e) (drop (String.length e) t) c) eqn:Hz;
        [reflexivity|]. exfalso. exact (Hk _ _ _ Hz).
    + apply IH; [discriminate|exact Hall|exact Hk].
Qed.

Lemma search_skips_stem g stem :
  all_chars notDot stem = true ->
  forall p rest,
    search (Seq (Chr ".") g) p (stem ++ rest)
    = search (Seq (Chr ".") g) (p + String.length stem) rest.
Proof.
  induction stem as [|a stem IH]; intros H p rest.
  - cbn. rewrite Nat.add_0_r. reflexivity.
  - cbn in H. apply andb_true_iff in H as [Ha H].
    unfold notDot in Ha. apply negb_true_iff in Ha. rewrite Ascii.eqb_sym in Ha.
    cbn [append search matcher String.length]. rewrite Ha.
    rewrite IH by exact H. f_equal. lia.
Qed.

(** Line 56 of the loader for a list of plain extensions: in a path whose
    first dot is the one of the extension, what goes is the dot and the
    first extension of the list that the text after the dot starts with. *)
Lemma replace_extension exts stem tail a :
  exts <> [] ->
  forallb plainExtension exts = true ->
  all_chars notDot stem = true ->
  firstPrefix exts tail = Some a ->
  replace (Seq (Chr ".") (Group 1 (alternation exts))) "" (stem ++ "." ++ tail)
  = stem ++ drop (String.length a) tail.
Proof.
  intros Hne Hall Hstem Hfirst. unfold replace.
  rewrite search_skips_stem by exact Hstem.
  cbn [append search matcher]. rewrite Ascii.eqb_refl.
  rewrite matcher_alternation; [|exact Hne|exact Hall|discriminate].
  rewrite Hfirst. unfold accept.
  cbn [Nat.add GetSubstitution append].
  change (String "." tail) with ("." ++ tail).
  rewrite substring_prefix. reflexivity.
Qed.

Lemma drop_all s : drop (String.length s) s = "".
Proof. induction s; cbn; congruence. Qed.

Lemma plain_extensions_route h pagesDir resourcePath exts stem e a :
  exts <> [] ->
  forallb plainExtension exts = true ->
  all_chars notDot stem = true ->
  Path.relative h pagesDir resourcePath = Normal (stem ++ "." ++ e) ->
  firstPrefix exts e = Some a ->
  parameterizedRoute h pagesDir resourcePath (String.concat "|" exts)
  = Normal (rootIfEmpty (dropTrailingIndex ("/" ++ stem ++ drop (String.length a) e))).
Proof.
  intros Hne Hall Hstem Hrel Hfirst.
  rewrite route_in_words, Hrel. cbn [obind].
  rewrite (parse_extensions exts Hne Hall). cbn [obind].
  change ("/" ++ stem ++ "." ++ e) with (("/" ++ stem) ++ "." ++ e).
  rewrite (replace_extension exts ("/" ++ stem) e a Hne Hall); [reflexivity| |exact Hfirst].
  cbn. exact Hstem.
Qed.

(** X6.  For page extensions made of letters and digits and joined by
    bars, and a file whose relative path has its first dot in front of the
    extension: what the loader pulls off is the dot and the first extension
    of the list that the text after the dot starts with; the rest of that
    text stays in the route. *)
Theorem route_of_plain_extensions h pagesDir resourcePath exts stem e a :
  exts <> [] ->
  forallb plainExtension exts = true ->
  all_chars notDot stem = true ->
  Path.relative h pagesDir resourcePath = Normal (stem ++ "." ++ e) ->
  firstPrefix exts e = Some a ->
  parameterizedRoute h pagesDir resourcePath (String.concat "|" exts)
  = Normal (rootIfEmpty (dropTrailingIndex ("/" ++ stem ++ drop (String.length a) e))).
Proof. exact (plain_extensions_route h pagesDir resourcePath exts stem e a). Qed.

(** X7.  Under the same conditions, when no extension listed before the
    extension of the file is a beginning of it, the extension is pulled off
    whole: the route is the path without it, without a trailing "/index",
    and "/" if nothing is left. *)
Theorem listed_extension_is_pulled_off h pagesDir resourcePath exts stem e :
  exts <> [] ->
  forallb plainExtension exts = true ->
  all_chars notDot stem = true ->
  Path.relative h pagesDir resourcePath = Normal (stem ++ "." ++ e) ->
  firstPrefix exts e = Some e ->
  parameterizedRoute h pagesDir resourcePath (String.concat "|" exts)
  = Normal (rootIfEmpty (dropTrailingIndex ("/" ++ stem))).
Proof.
  intros Hne Hall Hstem Hrel Hfirst.
  rewrite (plain_extensions_route h pagesDir resourcePath exts stem e e
             Hne Hall Hstem Hrel Hfirst).
  rewrite drop_all, append_empty_r. reflexivity.
Qed.

(** ** Files outside the pages directory *)

Lemma firstPrefix_not_alnum exts a t :
  forallb plainExtension exts = true ->
  isAlnum a = false ->
  firstPrefix exts (String a t) = None.
Proof.
  intros Hall Ha. unfold firstPrefix.
  induction exts as [|e exts IH]; [reflexivity|].
  cbn [forallb] in Hall. apply andb_true_iff in Hall as [He Hall].
  apply plainExtension_inv in He as [Halnum Hne].
  destruct e as [|b e]; [congruence|].
  cbn in Halnum. apply andb_true_iff in Halnum as [Hb _].
  cbn [find]. rewrite prefix_cons.
  destruct (Ascii.eqb b a) eqn:Hba.
  - apply Ascii.eqb_eq in Hba. congruence.
  - apply IH. exact Hall.
Qed.

Lemma replace_outside exts x :
  exts <> [] ->
  forallb plainExtension exts = true ->
  exists tl,
    replace (Seq (Chr ".") (Group 1 (alternation exts))) ""
      (String "/" (String "." (String "." (String "/" x))))
    = String "/" (String "." (String "." (String "/" tl))).
Proof.
  intros Hne Hall. unfold replace.
  cbn [search matcher].
  change (Ascii.eqb "." "/") with false. change (Ascii.eqb "." ".") with true.
  cbn iota.
  rewrite !matcher_alternation by (assumption || discriminate).
  rewrite !(firstPrefix_not_alnum exts) by (assumption || reflexivity).
  destruct (search _ 4 x) as [[b [[e rest] c]]|] eqn:Hsearch; [|eexists; reflexivity].
  apply search_from in Hsearch.
  do 4 (destruct b as [|b]; [lia|]).
  eexists. cbn [substring append GetSubstitution]. reflexivity.
Qed.

Lemma dropTrailingIndex_outside tl :
  exists tl', dropTrailingIndex (String "/" (String "." (String "." (String "/" tl))))
              = String "/" (String "." (String "." tl')).
Proof.
  unfold dropTrailingIndex.
  destruct (String.eqb _ "/index") eqn:Heq; [|eexists; reflexivity].
  apply ends_with_index in Heq as [pre Hpre]. rewrite Hpre.
  rewrite append_length. cbn [String.length].
  replace (String.length pre + 6 - 6) with (String.length pre) by lia.
  rewrite substring_prefix.
  destruct pre as [|a [|b [|c pre]]]; cbn in Hpre; try discriminate.
  injection Hpre as <- <- <- _. eexists. reflexivity.
Qed.

(** A file outside the pages directory keeps the two dots at the head of
    its route. *)
Lemma route_outside h pagesDir resourcePath exts x route :
  exts <> [] ->
  forallb plainExtension exts = true ->
  Path.relative h pagesDir resourcePath = Normal ("../" ++ x) ->
  parameterizedRoute h pagesDir resourcePath (String.concat "|" exts) = Normal route ->
  exists tl, route = String "/" (String "." (String "." tl)).
Proof.
  intros Hne Hall Hrel. rewrite route_in_words, Hrel. cbn [obind].
  rewrite (parse_extensions exts Hne Hall). cbn [obind]. intros [= <-].
  cbn [append].
  destruct (replace_outside exts x Hne Hall) as [tl ->].
  destruct (dropTrailingIndex_outside tl) as [tl' ->].
  exists tl'. reflexivity.
Qed.

(** X14.  With page extensions made of letters and digits, a file whose
    relative path starts with "../" (a file outside the pages directory,
    such as the middleware file) has a route that does not start with
    "/api": it never gets the API template, and gets the middleware template
    exactly when its path is one of the two middleware paths. *)
Theorem outside_file_never_gets_the_api_template
    (t : Templates) h pagesDir resourcePath exts x route mjs mts :
  exts <> [] ->
  forallb plainExtension exts = true ->
  Path.relative h pagesDir resourcePath = Normal ("../" ++ x) ->
  parameterizedRoute h pagesDir resourcePath (String.concat "|" exts) = Normal route ->
  String.prefix "/api" route = false
  /\ selectTemplate t route resourcePath mjs mts
     = if String.eqb resourcePath mjs || String.eqb resourcePath mts
       then middlewareWrapperTemplateCode t
       else pageWrapperTemplateCode t.
Proof.
  intros Hne Hall Hrel Hroute.
  destruct (route_outside _ _ _ _ _ _ Hne Hall Hrel Hroute) as [tl ->].
  split; [reflexivity|]. reflexivity.
Qed.

(** ** Runs of the loader *)

Section LoaderMore.

Variable host : Host.
Variable templates : Templates.
Variable stringMatchesSomePattern : string -> list Rule -> bool -> bool.
Variable RollupBuild : Type.
Variable rollup : RollupOptions -> settled RollupBuild.
Variable generate :
  RollupBuild -> OutputOptions -> settled (OutputChunk * list OutputChunk).

Abbreviation wrapUserCode := (Loader.wrapUserCode RollupBuild rollup generate).
Abbreviation invoke :=
  (Loader.invoke host templates stringMatchesSomePattern RollupBuild rollup generate).

Lemma wrapUserCode_first_chunk w u sm b chunk rest :
  rollup (rollupOptions w u sm) = Fulfilled b ->
  generate b {| format := "esm"; sourcemap := "hidden" |} = Fulfilled (chunk, rest) ->
  fulfils (wrapUserCode w u sm) chunk.
Proof.
  intros Hr Hg tr.
  unfold Loader.wrapUserCode, bind, emit, await, ret. rewrite Hr, Hg. reflexivity.
Qed.

Lemma fulfils_once {A : Type} (m : M A) (a1 a2 : A) :
  fulfils m a1 -> fulfils m a2 -> a1 = a2.
Proof.
  intros H1 H2. specialize (H1 []). specialize (H2 []). congruence.
Qed.

(** X1.  When [rollup] fulfils, [generate] fulfils with a list of chunks
    and the host's callback returns from the call it then gets, the loader
    hands code and source map of the first chunk to the callback, with
    [null] as the error; the other chunks are ignored, nothing is printed
    and the callback is not called again. *)
Theorem first_chunk_is_delivered this userCode sm w b chunk rest :
  In (w, userCode, sm) (links (events (invoke this userCode sm))) ->
  rollup (rollupOptions w userCode sm) = Fulfilled b ->
  generate b {| format := "esm"; sourcemap := "hidden" |} = Fulfilled (chunk, rest) ->
  callback_throws this [] None (code chunk) (map chunk) = None ->
  invoke this userCode sm =
    mkRun (Normal tt) (Some (Normal tt))
      [Async; WrapUserCode w userCode sm; Callback None (code chunk) (map chunk)].
Proof.
  intros Hin Hr Hg Hcb.
  pose proof (wrapUserCode_first_chunk w userCode sm b chunk rest Hr Hg) as Hful.
  destruct (invoke_shape host templates stringMatchesSomePattern RollupBuild rollup
              generate this userCode sm)
    as [e _ | _ | route _ _ | route mjs mts out _ _ _ _ Hout _
        | route mjs mts out e _ _ _ _ Hout Hthrew
        | route mjs mts err _ _ _ _ Herr];
    cbn in Hin; try contradiction.
  - destruct Hin as [Heq|[]]. inversion Heq; subst w.
    rewrite (fulfils_once _ _ _ Hout Hful). reflexivity.
  - destruct Hin as [Heq|[]]. inversion Heq; subst w.
    rewrite (fulfils_once _ _ _ Hout Hful) in Hthrew. congruence.
  - destruct Hin as [Heq|[]]. inversion Heq; subst w.
    exfalso. eapply settles_one_way; eassumption.
Qed.

(** X16.  When [rollup] and [generate] fulfil but the host's callback
    throws [e] on the first chunk, the handler chained after the call
    takes that exception like a failure of the link step: it prints the
    warning with [e] and calls the callback a second time, with the
    original code and source map; the promise chain settles as that second
    call ends. *)
Theorem throwing_callback_is_called_again this userCode sm w b chunk rest e :
  In (w, userCode, sm) (links (events (invoke this userCode sm))) ->
  rollup (rollupOptions w userCode sm) = Fulfilled b ->
  generate b {| format := "esm"; sourcemap := "hidden" |} = Fulfilled (chunk, rest) ->
  callback_throws this [] None (code chunk) (map chunk) = Some e ->
  invoke this userCode sm =
    mkRun (Normal tt)
      (Some (callResult (callback_throws this [(None, code chunk, map chunk)]
                           None userCode sm)))
      [Async; WrapUserCode w userCode sm;
       Callback None (code chunk) (map chunk);
       ConsoleWarn (warning (resourcePath this) e);
       Callback None userCode sm].
Proof.
  intros Hin Hr Hg Hcb.
  pose proof (wrapUserCode_first_chunk w userCode sm b chunk rest Hr Hg) as Hful.
  destruct (invoke_shape host templates stringMatchesSomePattern RollupBuild rollup
              generate this userCode sm)
    as [e' _ | _ | route _ _ | route mjs mts out _ _ _ _ Hout Hquiet
        | route mjs mts out e' _ _ _ _ Hout Hthrew
        | route mjs mts err _ _ _ _ Herr];
    cbn in Hin; try contradiction.
  - destruct Hin as [Heq|[]]. inversion Heq; subst w.
    rewrite (fulfils_once _ _ _ Hout Hful) in Hquiet. congruence.
  - destruct Hin as [Heq|[]]. inversion Heq; subst w.
    pose proof (fulfils_once _ _ _ Hout Hful) as ->.
    assert (e' = e) by congruence. subst e'. reflexivity.
  - destruct Hin as [Heq|[]]. inversion Heq; subst w.
    exfalso. eapply settles_one_way; eassumption.
Qed.

(** X15.  When [rollup] fulfils but [generate] then rejects, the loader
    falls back like for any failure of the link step: one warning naming
    the file and the error, then the callback with the original code and
    source map, as its first call; the promise chain settles as that call
    ends (fulfilled when it returns). *)
Theorem generate_failure_falls_back this userCode sm w b err :
  In (w, userCode, sm) (links (events (invoke this userCode sm))) ->
  rollup (rollupOptions w userCode sm) = Fulfilled b ->
  generate b {| format := "esm"; sourcemap := "hidden" |} = Rejected err ->
  invoke this userCode sm =
    mkRun (Normal tt)
      (Some (callResult (callback_throws this [] None userCode sm)))
      [Async; WrapUserCode w userCode sm;
       ConsoleWarn (warning (resourcePath this) err);
       Callback None userCode sm].
Proof.
  intros Hin Hr Hg.
  apply invoke_link_rejected; [exact Hin|].
  intros tr. unfold Loader.wrapUserCode, bind, emit, await, ret.
  rewrite Hr, Hg. reflexivity.
Qed.

(** X13.  Every invocation starts with [this.async()], calls
    [wrapUserCode] at most once, prints at most one warning and calls the
    callback at most twice, each time with [null] as the error.  A warning
    is printed only after the one call of [wrapUserCode], and then either
    that call rejected and the callback is called once, with the original
    code, or it fulfilled, the callback threw on the first chunk and is
    called a second time with the original code.  An invocation without a
    call of the callback is one whose call of the loader did not return
    normally. *)
Theorem run_is_bounded this userCode sm :
  let run := invoke this userCode sm in
  (exists tl, events run = Async :: tl)
  /\ List.length (links (events run)) <= 1
  /\ List.length (warnings (events run)) <= 1
  /\ List.length (callbacks (events run)) <= 2
  /\ (forall err content sourceMap,
        In (err, content, sourceMap) (callbacks (events run)) -> err = None)
  /\ (warnings (events run) <> [] ->
      exists w,
        links (events run) = [(w, userCode, sm)]
        /\ ((exists err,
               rejects (wrapUserCode w userCode sm) err
               /\ warnings (events run) = [warning (resourcePath this) err]
               /\ callbacks (events run) = [(None, userCode, sm)])
            \/ (exists out e,
                  fulfils (wrapUserCode w userCode sm) out
                  /\ callback_throws this [] None (code out) (map out) = Some e
                  /\ warnings (events run) = [warning (resourcePath this) e]
                  /\ callbacks (events run)
                     = [(None, code out, map out); (None, userCode, sm)])))
  /\ (callbacks (events run) = [] -> completion run <> Normal tt).
Proof.
  cbv zeta.
  destruct (invoke_shape host templates stringMatchesSomePattern RollupBuild rollup
              generate this userCode sm)
    as [e _ | _ | route _ _ | route mjs mts out _ _ _ _ Hout Hquiet
        | route mjs mts out e _ _ _ _ Hout Hthrew
        | route mjs mts err _ _ _ _ Herr];
    cbn [events completion links warnings callbacks List.length];
    (split; [eexists; reflexivity|]);
    (split; [lia|]); (split; [lia|]); (split; [lia|]);
    (split; [intros ? ? ? Hin; cbn in Hin;
             repeat (destruct Hin as [Hin|Hin]; [congruence|]); contradiction|]);
    (split; [|congruence]); try congruence; intros _.
  - eexists. split; [reflexivity|]. right. exists out, e. auto.
  - eexists. split; [reflexivity|]. left. exists err. auto.
Qed.

(** X3.  Whatever the host, the paths and the pattern, the route the
    loader computes is never the empty string. *)
Theorem route_is_never_empty h pagesDir resourcePath ext route :
  parameterizedRoute h pagesDir resourcePath ext = Normal route -> route <> "".
Proof.
  rewrite route_in_words.
  destruct (Path.relative h pagesDir resourcePath) as [rel| |]; cbn [obind]; try discriminate.
  destruct (RegExp_new _) as [re| |]; cbn [obind]; try discriminate.
  intros [= <-]. unfold rootIfEmpty.
  destruct (String.eqb _ "") eqn:H; [discriminate|].
  apply String.eqb_neq in H. exact H.
Qed.

End LoaderMore.

(** X2.  The options handed to [rollup]: the entry is the wrapper module;
    the first plugin loads the wrapper code under the wrapper name and the
    user's code with its source map under the target name; and for every
    identifier, either it is one of these two names, resolved to itself,
    loaded and not external, or it is external, not resolved and not
    loaded. *)
Theorem virtual_modules_are_the_internal_ones w u sm :
  exists resolveId load,
    plugins (rollupOptions w u sm)
    = [InlinePlugin "virtualize-sentry-wrapper-modules" resolveId load;
       CommonjsPlugin {| transformMixedEsModules := true; sourceMap := true |}]
    /\ load SENTRY_WRAPPER_MODULE_NAME = LoadCode w
    /\ load WRAPPING_TARGET_MODULE_NAME = LoadCodeMap u sm
    /\ input (rollupOptions w u sm) = SENTRY_WRAPPER_MODULE_NAME
    /\ forall id,
         (external (rollupOptions w u sm) id = false
          /\ resolveId id = Some id /\ load id <> LoadNull
          /\ (id = SENTRY_WRAPPER_MODULE_NAME \/ id = WRAPPING_TARGET_MODULE_NAME))
         \/ (external (rollupOptions w u sm) id = true
             /\ resolveId id = None /\ load id = LoadNull
             /\ id <> SENTRY_WRAPPER_MODULE_NAME /\ id <> WRAPPING_TARGET_MODULE_NAME).
Proof.
  eexists. eexists. split; [reflexivity|].
  split; [reflexivity|]. split; [reflexivity|]. split; [reflexivity|].
  intros id. cbn [external rollupOptions].
  destruct (String.eqb id SENTRY_WRAPPER_MODULE_NAME) eqn:Hw.
  - left. apply String.eqb_eq in Hw. cbn. repeat split; auto. discriminate.
  - destruct (String.eqb id WRAPPING_TARGET_MODULE_NAME) eqn:Ht.
    + left. apply String.eqb_eq in Ht. cbn. repeat split; auto. discriminate.
    + right. apply String.eqb_neq in Hw. apply String.eqb_neq in Ht.
      cbn. repeat split; auto.
Qed.

(** ** The further properties at sample inputs *)

Lemma route_starts_with_a_slash_witness :
  exists tl, "/blog" = String "/" tl.
Proof.
  eapply (route_starts_with_a_slash posixHost "/app/pages" "/app/pages/blog/index.ts"
            defaultExtensions _ "/blog").
  - reflexivity.
  - reflexivity.
Defined.

Lemma route_is_never_empty_witness : "/" <> "".
Proof.
  apply (route_is_never_empty posixHost "/app/pages" "/app/pages/index.ts"
           defaultExtensions "/").
  reflexivity.
Defined.

Lemma route_of_plain_extensions_witness :
  parameterizedRoute posixHost "/app/pages" "/app/pages/about.jsx"
    (String.concat "|" ["js"; "jsx"])
  = Normal (rootIfEmpty (dropTrailingIndex ("/" ++ "about" ++ drop (String.length "js") "jsx"))).
Proof.
  apply (route_of_plain_extensions posixHost "/app/pages" "/app/pages/about.jsx"
           ["js"; "jsx"] "about" "jsx" "js").
  - discriminate.
  - reflexivity.
  - reflexivity.
  - reflexivity.
  - reflexivity.
Defined.

Lemma listed_extension_is_pulled_off_witness :
  parameterizedRoute posixHost "/app/pages" "/app/pages/blog/index.ts"
    (String.concat "|" ["tsx"; "ts"; "jsx"; "js"])
  = Normal (rootIfEmpty (dropTrailingIndex ("/" ++ "blog/index"))).
Proof.
  apply (listed_extension_is_pulled_off posixHost "/app/pages" "/app/pages/blog/index.ts"
           ["tsx"; "ts"; "jsx"; "js"] "blog/index" "ts").
  - discriminate.
  - reflexivity.
  - reflexivity.
  - reflexivity.
  - reflexivity.
Defined.

Lemma injection_is_plain_replacement_witness :
  injectRoute "/blog\[id]" (pageWrapperTemplateCode sampleTemplates)
  = replaceEvery "__SENTRY_WRAPPING_TARGET_FILE__" WRAPPING_TARGET_MODULE_NAME
      (replaceEvery "__ROUTE__" (doubleBackslashes "/blog\[id]")
         (pageWrapperTemplateCode sampleTemplates)).
Proof.
  apply (injection_is_plain_replacement "/blog\[id]"
           (pageWrapperTemplateCode sampleTemplates)).
  reflexivity.
Defined.

Lemma template_without_placeholders_is_kept_witness :
  injectRoute "/$&" "export * from './page';" = "export * from './page';".
Proof.
  apply (template_without_placeholders_is_kept "/$&" "export * from './page';").
  - reflexivity.
  - reflexivity.
Defined.

Lemma posix_route_code_units_witness :
  all_chars notDollar "/blog/[id]" = true.
Proof.
  apply (posix_route_code_units notDollar "/home/build" "/app/pages"
           "/app/pages/blog/[id].tsx" defaultExtensions "/blog/[id]").
  - reflexivity.
  - reflexivity.
  - reflexivity.
  - reflexivity.
  - reflexivity.
  - reflexivity.
Defined.

Lemma posix_route_is_injected_verbatim_witness :
  injectRoute "/blog/[id]" (pageWrapperTemplateCode sampleTemplates)
  = replaceEvery "__SENTRY_WRAPPING_TARGET_FILE__" WRAPPING_TARGET_MODULE_NAME
      (replaceEvery "__ROUTE__" "/blog/[id]" (pageWrapperTemplateCode sampleTemplates)).
Proof.
  apply (posix_route_is_injected_verbatim "/home/build" "/app/pages"
           "/app/pages/blog/[id].tsx" defaultExtensions "/blog/[id]"
           (pageWrapperTemplateCode sampleTemplates)).
  - reflexivity.
  - reflexivity.
  - reflexivity.
  - reflexivity.
Defined.

Lemma outside_file_never_gets_the_api_template_witness :
  String.prefix "/api" "/../middleware" = false
  /\ selectTemplate sampleTemplates "/../middleware" "/app/middleware.ts"
       "/app/middleware.js" "/app/middleware.ts"
     = if String.eqb "/app/middleware.ts" "/app/middleware.js"
          || String.eqb "/app/middleware.ts" "/app/middleware.ts"
       then middlewareWrapperTemplateCode sampleTemplates
       else pageWrapperTemplateCode sampleTemplates.
Proof.
  apply (outside_file_never_gets_the_api_template sampleTemplates posixHost
           "/app/pages" "/app/middleware.ts" ["tsx"; "ts"; "jsx"; "js"]
           "middleware.ts" "/../middleware" "/app/middleware.js" "/app/middleware.ts").
  - discriminate.
  - reflexivity.
  - reflexivity.
  - reflexivity.
Defined.

Lemma first_chunk_is_delivered_witness :
  invoke posixHost sampleTemplates matchesSomeRule unit rollup_ok generate_ok
    (loaderThis "/app/pages/blog/index.tsx" defaultExtensions [])
    "export default 1" None
  = mkRun (Normal tt) (Some (Normal tt))
      [Async;
       WrapUserCode "page(/blog); export * from '__SENTRY_WRAPPING_TARGET_FILE__.cjs';"
         "export default 1" None;
       Callback None (code (mkChunk "bundle" (Some "{}")))
         (Loader.map (mkChunk "bundle" (Some "{}")))].
Proof.
  apply (first_chunk_is_delivered posixHost sampleTemplates matchesSomeRule unit
           rollup_ok generate_ok
           (loaderThis "/app/pages/blog/index.tsx" defaultExtensions [])
           "export default 1" None
           "page(/blog); export * from '__SENTRY_WRAPPING_TARGET_FILE__.cjs';"
           tt (mkChunk "bundle" (Some "{}")) []).
  - vm_compute. left. reflexivity.
  - reflexivity.
  - reflexivity.
  - reflexivity.
Defined.

Lemma throwing_callback_is_called_again_witness :
  invoke posixHost sampleTemplates matchesSomeRule unit rollup_ok generate_ok
    (loaderThisFailingDownstream "/app/pages/blog/index.tsx" defaultExtensions [])
    "export default 1" None
  = mkRun (Normal tt)
      (Some (Throw (mkError "Error" "callback(): The callback was already called.")))
      [Async;
       WrapUserCode "page(/blog); export * from '__SENTRY_WRAPPING_TARGET_FILE__.cjs';"
         "export default 1" None;
       Callback None "bundle" (Some "{}");
       ConsoleWarn (warning "/app/pages/blog/index.tsx"
                      (mkError "Error" "Module parse failed"));
       Callback None "export default 1" None].
Proof.
  apply (throwing_callback_is_called_again posixHost sampleTemplates matchesSomeRule
           unit rollup_ok generate_ok
           (loaderThisFailingDownstream "/app/pages/blog/index.tsx" defaultExtensions [])
           "export default 1" None
           "page(/blog); export * from '__SENTRY_WRAPPING_TARGET_FILE__.cjs';"
           tt (mkChunk "bundle" (Some "{}")) []
           (mkError "Error" "Module parse failed")).
  - vm_compute. left. reflexivity.
  - reflexivity.
  - reflexivity.
  - reflexivity.
Defined.

Lemma generate_failure_falls_back_witness :
  invoke posixHost sampleTemplates matchesSomeRule unit rollup_ok
    (fun _ _ => Rejected (mkError "Error" "Out of memory"))
    (loaderThis "/app/pages/blog/index.tsx" defaultExtensions [])
    "export default 1" None
  = mkRun (Normal tt) (Some (Normal tt))
      [Async;
       WrapUserCode "page(/blog); export * from '__SENTRY_WRAPPING_TARGET_FILE__.cjs';"
         "export default 1" None;
       ConsoleWarn (warning "/app/pages/blog/index.tsx" (mkError "Error" "Out of memory"));
       Callback None "export default 1" None].
Proof.
  apply (generate_failure_falls_back posixHost sampleTemplates matchesSomeRule unit
           rollup_ok (fun _ _ => Rejected (mkError "Error" "Out of memory"))
           (loaderThis "/app/pages/blog/index.tsx" defaultExtensions [])
           "export default 1" None
           "page(/blog); export * from '__SENTRY_WRAPPING_TARGET_FILE__.cjs';"
           tt (mkError "Error" "Out of memory")).
  - vm_compute. left. reflexivity.
  - reflexivity.
  - reflexivity.
Defined.

(** Why the route must hold no dollar sign for the replacement to be plain:
    in the template of a replacement, a dollar sign and an ampersand stand
    for the matched text. *)
Example dollar_in_a_route_is_a_pattern :
  injectRoute "/$&" "page('__ROUTE__')" = "page('/__ROUTE__')".
Proof. reflexivity. Qed.

(** Why the brackets of the pattern must be balanced for the route to start
    with a slash. *)
Example unbalanced_pattern_can_eat_the_slash :
  parameterizedRoute posixHost "/app/pages" "/app/pages/blog.ts" "ts)|(/"
  = Normal "blog.ts".
Proof. reflexivity. Qed.
